(** * GitInsights: the API client and the user-data orchestrator

    A shallow embedding of [frontend/src/api/githubInsightsApi.js] (the
    [fetchApi] wrapper and its endpoint table) and of
    [frontend/src/context/UserContext.jsx] (the state of [UserProvider],
    its seven fetch operations, [loadUserData], the recent-searches list
    and the effect that persists it), followed by the properties the
    specification states about them.

    Conventions.
    - The state of the provider is one record.  A setter call is a record
      update, and setter calls take effect in program order; a functional
      updater is applied to the state it finds.
    - An [async] function is cut at its [await]s.  What runs between two
      suspension points is one step of the event loop, and the states
      between steps are the observable ones.
    - The host is the environment: it chooses which request in flight
      settles next and with what, and it supplies [JSON.parse]. *)

From Stdlib Require Import PrimFloat.
From stdpp Require Import gmap strings list pretty sorting.

Set Warnings "-register-all".

(** ** JavaScript values *)

Module JS.

(** The values a parsed JSON body can be, plus [undefined].  An object is
    its own properties in insertion order, keys distinct. *)
Inductive value : Type :=
| Undefined
| Null
| Bool (b : bool)
| Num (f : float)
| Str (s : string)
| Arr (items : list value)
| Obj (props : list (string * value)).

(** An [Error] instance as far as this code looks at it: its [message],
    when it has one. *)
Record Error : Type := mkError { message : option string }.

(** What an awaited call yields. *)
Inductive completion (A : Type) : Type :=
| Normal (a : A)
| Throw (e : Error).
Arguments Normal {A} a.
Arguments Throw {A} e.

(** ToBoolean. *)
Definition truthy (v : value) : bool :=
  match v with
  | Undefined | Null => false
  | Bool b => b
  | Num f => negb (PrimFloat.eqb f 0 || PrimFloat.is_nan f)
  | Str s => negb (String.eqb s "")
  | Arr _ | Obj _ => true
  end.

Fixpoint own_prop (k : string) (props : list (string * value)) : value :=
  match props with
  | [] => Undefined
  | (k', v) :: rest => if String.eqb k' k then v else own_prop k rest
  end.

Definition TypeError (what : string) : Error :=
  mkError (Some ("Cannot read properties of " +:+ what)).

(** [v.k] for a key [k] that no built-in prototype defines. *)
Definition get (v : value) (k : string) : completion value :=
  match v with
  | Undefined => Throw (TypeError "undefined")
  | Null => Throw (TypeError "null")
  | Obj props => Normal (own_prop k props)
  | _ => Normal Undefined
  end.

(** [a || b] *)
Definition or_else (a b : value) : value := if truthy a then a else b.

(** [`${n}`] for a non-negative integer. *)
Definition digits (n : N) : string := pretty n.

End JS.

Import JS.

(** ** The API client: [githubInsightsApi.js] *)

Module Api.

Definition BACKEND_URL : string := "http://localhost:8000".
Definition API_BASE_URL : string := BACKEND_URL +:+ "/api/v1".

(** What [fetch] resolves to: the status line and what [response.json()]
    will do when asked. *)
Record Response : Type := mkResponse {
  status : N;
  json : completion value
}.

(** [response.ok], as the Fetch standard defines it. *)
Definition ok (r : Response) : bool :=
  (200 <=? status r)%N && (status r <=? 299)%N.

(** What [await fetch(url, ...)] does. *)
Definition FetchOutcome : Type := completion Response.

(** The console, as a trace. *)
Inductive arg : Type :=
| AVal (v : value)
| AErr (e : Error).

Inductive line : Type :=
| console_log (args : list arg)
| console_error (args : list arg).

(** Code that logs and may throw. *)
Definition M (A : Type) : Type := (list line * completion A)%type.

#[export] Instance M_ret : MRet M := fun A a => ([], Normal a).
#[export] Instance M_bind : MBind M := fun A B k m =>
  match m with
  | (out, Normal a) => let '(out', r) := k a in (out ++ out', r)
  | (out, Throw e) => (out, Throw e)
  end.
Definition emit (l : line) : M unit := ([l], Normal tt).
Definition await {A} (c : completion A) : M A := ([], c).
(** [try { body } catch (error) { handler }] *)
Definition try_catch {A} (body : M A) (handler : Error -> M A) : M A :=
  match body with
  | (out, Normal a) => (out, Normal a)
  | (out, Throw e) => let '(out', r) := handler e in (out ++ out', r)
  end.
(** [promise.catch(() => v)] *)
Definition catch_with {A} (c : completion A) (v : A) : completion A :=
  match c with
  | Normal a => Normal a
  | Throw _ => Normal v
  end.

(** [fetchApi(endpoint)]; every method of the client calls it with the
    default [options = {}].  [net] is the host's [fetch] at that URL. *)
Definition fetchApi (endpoint : string) (net : string -> FetchOutcome)
  : M value :=
  try_catch
    (let url := API_BASE_URL +:+ endpoint in
     emit (console_log [AVal (Str ("Requesting: " +:+ url))]) ;;
     response ← await (net url) ;
     if negb (ok response) then
       errorData ← await (catch_with (json response) (Obj [])) ;
       detail ← await (get errorData "detail") ;
       let errorMessage :=
         or_else detail (Str ("API Error: " +:+ digits (status response))) in
       emit (console_error
               [AVal (Str ("API Error: " +:+ endpoint)); AVal errorMessage]) ;;
       mret Null
     else
       await (json response))
    (fun error =>
       emit (console_error
               [AVal (Str ("API Error: " +:+ endpoint)); AErr error]) ;;
       mret Null).

(** The endpoint each method of [githubInsightsApi] asks for. *)
Definition getUserProfile (username : string) : string :=
  "/users/" +:+ username.
Definition getUserSummary (username : string) : string :=
  "/users/" +:+ username +:+ "/summary".
Definition getUserRepositories (username sort direction : string) : string :=
  "/users/" +:+ username +:+ "/repositories?sort=" +:+ sort
    +:+ "&direction=" +:+ direction.
Definition getUserLanguages (username : string) : string :=
  "/users/" +:+ username +:+ "/languages".
Definition getActivityTimeline (username : string) (days : N) : string :=
  "/users/" +:+ username +:+ "/activity-timeline?days=" +:+ digits days.
Definition getRepositoryStats (username repo : string) : string :=
  "/users/" +:+ username +:+ "/" +:+ repo +:+ "/stats".
Definition getRepositoryInsights (username : string) : string :=
  "/users/" +:+ username +:+ "/repository-insights".
Definition getLanguageTrends (username : string) : string :=
  "/users/" +:+ username +:+ "/language-trends".
Definition getContributionHeatmap (username : string) (days : N) : string :=
  "/users/" +:+ username +:+ "/contribution-heatmap?days=" +:+ digits days.

End Api.


(** ** The orchestrator: [UserContext.jsx] *)

(** The seven keys of [loadingStates]. *)
Inductive resource : Type :=
| Profile | Repositories | Languages | Activity | Insights | Trends
| Contributions.

#[global] Instance resource_eq_dec : EqDecision resource.
Proof. solve_decision. Defined.

Definition secondary : list resource :=
  [Repositories; Languages; Activity; Insights; Trends; Contributions].

(** The [loadingStates] object. *)
Module Flags.

Record t : Type := mk {
  profile : bool;
  repositories : bool;
  languages : bool;
  activity : bool;
  insights : bool;
  trends : bool;
  contributions : bool
}.

Definition initial : t := mk false false false false false false false.

Definition get (k : resource) (f : t) : bool :=
  match k with
  | Profile => profile f
  | Repositories => repositories f
  | Languages => languages f
  | Activity => activity f
  | Insights => insights f
  | Trends => trends f
  | Contributions => contributions f
  end.

(** [{ ...prevStates, [key]: value }] *)
Definition set (k : resource) (v : bool) (f : t) : t :=
  match k with
  | Profile => mk v (repositories f) (languages f) (activity f) (insights f) (trends f) (contributions f)
  | Repositories => mk (profile f) v (languages f) (activity f) (insights f) (trends f) (contributions f)
  | Languages => mk (profile f) (repositories f) v (activity f) (insights f) (trends f) (contributions f)
  | Activity => mk (profile f) (repositories f) (languages f) v (insights f) (trends f) (contributions f)
  | Insights => mk (profile f) (repositories f) (languages f) (activity f) v (trends f) (contributions f)
  | Trends => mk (profile f) (repositories f) (languages f) (activity f) (insights f) v (contributions f)
  | Contributions => mk (profile f) (repositories f) (languages f) (activity f) (insights f) (trends f) v
  end.

(** [Object.values(f)] *)
Definition values (f : t) : list bool :=
  [profile f; repositories f; languages f; activity f; insights f; trends f;
   contributions f].

(** [Object.values(f).some(Boolean)] *)
Definition some (f : t) : bool := existsb (fun b => b) (values f).

End Flags.

(** Everything [UserProvider] holds: its [useState] cells and the
    [isLoadingRef] ref.  [recentSearchesRef] stands for the identity of the
    array in [recentSearches], which is what the dependency list of the
    persistence effect compares. *)
Record State : Type := mkState {
  username : string;
  userData : value;
  repositories : value;
  languages : value;
  activityData : value;
  repoInsights : value;
  languageTrends : value;
  contributionData : value;
  isLoading : bool;
  loadingStates : Flags.t;
  error : option string;
  isLoadingRef : bool;
  recentSearches : list string;
  recentSearchesRef : nat
}.

Definition initial_state (saved : list string) : State :=
  mkState "" Null (Arr []) Null Null Null Null Null false Flags.initial None
          false saved 0.

(** The setters. *)
Definition setUsername (v : string) (s : State) : State :=
  mkState v (userData s) (repositories s) (languages s) (activityData s)
    (repoInsights s) (languageTrends s) (contributionData s) (isLoading s)
    (loadingStates s) (error s) (isLoadingRef s) (recentSearches s)
    (recentSearchesRef s).
Definition setUserData (v : value) (s : State) : State :=
  mkState (username s) v (repositories s) (languages s) (activityData s)
    (repoInsights s) (languageTrends s) (contributionData s) (isLoading s)
    (loadingStates s) (error s) (isLoadingRef s) (recentSearches s)
    (recentSearchesRef s).
Definition setRepositories (v : value) (s : State) : State :=
  mkState (username s) (userData s) v (languages s) (activityData s)
    (repoInsights s) (languageTrends s) (contributionData s) (isLoading s)
    (loadingStates s) (error s) (isLoadingRef s) (recentSearches s)
    (recentSearchesRef s).
Definition setLanguages (v : value) (s : State) : State :=
  mkState (username s) (userData s) (repositories s) v (activityData s)
    (repoInsights s) (languageTrends s) (contributionData s) (isLoading s)
    (loadingStates s) (error s) (isLoadingRef s) (recentSearches s)
    (recentSearchesRef s).
Definition setActivityData (v : value) (s : State) : State :=
  mkState (username s) (userData s) (repositories s) (languages s) v
    (repoInsights s) (languageTrends s) (contributionData s) (isLoading s)
    (loadingStates s) (error s) (isLoadingRef s) (recentSearches s)
    (recentSearchesRef s).
Definition setRepoInsights (v : value) (s : State) : State :=
  mkState (username s) (userData s) (repositories s) (languages s)
    (activityData s) v (languageTrends s) (contributionData s) (isLoading s)
    (loadingStates s) (error s) (isLoadingRef s) (recentSearches s)
    (recentSearchesRef s).
Definition setLanguageTrends (v : value) (s : State) : State :=
  mkState (username s) (userData s) (repositories s) (languages s)
    (activityData s) (repoInsights s) v (contributionData s) (isLoading s)
    (loadingStates s) (error s) (isLoadingRef s) (recentSearches s)
    (recentSearchesRef s).
Definition setContributionData (v : value) (s : State) : State :=
  mkState (username s) (userData s) (repositories s) (languages s)
    (activityData s) (repoInsights s) (languageTrends s) v (isLoading s)
    (loadingStates s) (error s) (isLoadingRef s) (recentSearches s)
    (recentSearchesRef s).
Definition setIsLoading (v : bool) (s : State) : State :=
  mkState (username s) (userData s) (repositories s) (languages s)
    (activityData s) (repoInsights s) (languageTrends s) (contributionData s)
    v (loadingStates s) (error s) (isLoadingRef s) (recentSearches s)
    (recentSearchesRef s).
(** [setLoadingStates(updater)] *)
Definition setLoadingStates (updater : Flags.t -> Flags.t) (s : State) : State :=
  mkState (username s) (userData s) (repositories s) (languages s)
    (activityData s) (repoInsights s) (languageTrends s) (contributionData s)
    (isLoading s) (updater (loadingStates s)) (error s) (isLoadingRef s)
    (recentSearches s) (recentSearchesRef s).
Definition setError (v : option string) (s : State) : State :=
  mkState (username s) (userData s) (repositories s) (languages s)
    (activityData s) (repoInsights s) (languageTrends s) (contributionData s)
    (isLoading s) (loadingStates s) v (isLoadingRef s) (recentSearches s)
    (recentSearchesRef s).
(** [isLoadingRef.current = v] *)
Definition setIsLoadingRef (v : bool) (s : State) : State :=
  mkState (username s) (userData s) (repositories s) (languages s)
    (activityData s) (repoInsights s) (languageTrends s) (contributionData s)
    (isLoading s) (loadingStates s) (error s) v (recentSearches s)
    (recentSearchesRef s).
(** [setRecentSearches(updater)]; the updater of this file returns a new
    array on every call. *)
Definition setRecentSearches (updater : list string -> list string) (s : State)
  : State :=
  mkState (username s) (userData s) (repositories s) (languages s)
    (activityData s) (repoInsights s) (languageTrends s) (contributionData s)
    (isLoading s) (loadingStates s) (error s) (isLoadingRef s)
    (updater (recentSearches s)) (S (recentSearchesRef s)).

(** [updateLoadingState(key, value)]: the updater writes the flag and, from
    the updated object, the aggregate. *)
Definition updateLoadingState (key : resource) (v : bool) (s : State) : State :=
  let prevStates := loadingStates s in
  let updatedStates := Flags.set key v prevStates in
  let anyLoading := Flags.some updatedStates in
  let s := setIsLoading anyLoading s in
  setLoadingStates (fun _ => updatedStates) s.

Definition clearUserData (s : State) : State :=
  let s := setUserData Null s in
  let s := setRepositories (Arr []) s in
  let s := setLanguages Null s in
  let s := setActivityData Null s in
  let s := setRepoInsights Null s in
  let s := setLanguageTrends Null s in
  let s := setContributionData Null s in
  setError None s.

(** *** The seven fetch operations

    Each is cut at its one [await]: [_start] runs up to the call of the
    client and gives the endpoint asked for, [_resume] takes what the call
    yielded and runs the rest, [finally] block included, giving the value
    the operation returns. *)

(** [error.message || 'Unknown error'] *)
Definition message_or (e : Error) (fallback : string) : string :=
  match message e with
  | Some m => if String.eqb m "" then fallback else m
  | None => fallback
  end.

Definition fetchUserProfile_start (username : string) (s : State)
  : State * string :=
  (updateLoadingState Profile true s, Api.getUserProfile username).

Definition fetchUserProfile_resume (username : string)
    (out : completion value) (s : State) : State * value :=
  let '(s, result) :=
    match out with
    | Normal data =>
        if truthy data then (setUserData data s, data)
        else (setError (Some ("User " +:+ username +:+ " not found")) s, Null)
    | Throw error =>
        (setError (Some ("Failed to load user profile: "
                         +:+ message_or error "Unknown error")) s, Null)
    end in
  (updateLoadingState Profile false s, result).

Definition fetchRepositories_start (username : string) (s : State)
  : State * string :=
  (updateLoadingState Repositories true s,
   Api.getUserRepositories username "updated" "desc").

Definition fetchRepositories_resume (out : completion value) (s : State)
  : State * value :=
  let '(s, result) :=
    match out with
    | Normal data =>
        if truthy data then (setRepositories data s, data)
        else (setRepositories (Arr []) s, Arr [])
    | Throw error => (setRepositories (Arr []) s, Arr [])
    end in
  (updateLoadingState Repositories false s, result).

Definition fetchLanguages_start (username : string) (s : State)
  : State * string :=
  (updateLoadingState Languages true s, Api.getUserLanguages username).

Definition fetchLanguages_resume (out : completion value) (s : State)
  : State * value :=
  let '(s, result) :=
    match out with
    | Normal data =>
        if truthy data then (setLanguages data s, data)
        else (setLanguages Null s, Null)
    | Throw error => (setLanguages Null s, Null)
    end in
  (updateLoadingState Languages false s, result).

(** [days = 30] *)
Definition fetchActivityData_start (username : string) (days : option N)
    (s : State) : State * string :=
  (updateLoadingState Activity true s,
   Api.getActivityTimeline username (default 30%N days)).

Definition fetchActivityData_resume (out : completion value) (s : State)
  : State * value :=
  let '(s, result) :=
    match out with
    | Normal data =>
        if truthy data then (setActivityData data s, data)
        else (setActivityData Null s, Null)
    | Throw error => (setActivityData Null s, Null)
    end in
  (updateLoadingState Activity false s, result).

Definition fetchRepoInsights_start (username : string) (s : State)
  : State * string :=
  (updateLoadingState Insights true s, Api.getRepositoryInsights username).

Definition fetchRepoInsights_resume (out : completion value) (s : State)
  : State * value :=
  let '(s, result) :=
    match out with
    | Normal data =>
        if truthy data then (setRepoInsights data s, data)
        else (setRepoInsights Null s, Null)
    | Throw error => (setRepoInsights Null s, Null)
    end in
  (updateLoadingState Insights false s, result).

Definition fetchLanguageTrends_start (username : string) (s : State)
  : State * string :=
  (updateLoadingState Trends true s, Api.getLanguageTrends username).

Definition fetchLanguageTrends_resume (out : completion value) (s : State)
  : State * value :=
  let '(s, result) :=
    match out with
    | Normal data =>
        if truthy data then (setLanguageTrends data s, data)
        else (setLanguageTrends Null s, Null)
    | Throw error => (setLanguageTrends Null s, Null)
    end in
  (updateLoadingState Trends false s, result).

(** [days = 365] *)
Definition fetchContributionData_start (username : string) (days : option N)
    (s : State) : State * string :=
  (updateLoadingState Contributions true s,
   Api.getContributionHeatmap username (default 365%N days)).

Definition fetchContributionData_resume (out : completion value) (s : State)
  : State * value :=
  let '(s, result) :=
    match out with
    | Normal data =>
        if truthy data then (setContributionData data s, data)
        else (setContributionData Null s, Null)
    | Throw error => (setContributionData Null s, Null)
    end in
  (updateLoadingState Contributions false s, result).

(** The operation behind each key. *)
Definition fetch_start (r : resource) (username : string) (days : option N)
    (s : State) : State * string :=
  match r with
  | Profile => fetchUserProfile_start username s
  | Repositories => fetchRepositories_start username s
  | Languages => fetchLanguages_start username s
  | Activity => fetchActivityData_start username days s
  | Insights => fetchRepoInsights_start username s
  | Trends => fetchLanguageTrends_start username s
  | Contributions => fetchContributionData_start username days s
  end.

Definition fetch_resume (r : resource) (username : string)
    (out : completion value) (s : State) : State * value :=
  match r with
  | Profile => fetchUserProfile_resume username out s
  | Repositories => fetchRepositories_resume out s
  | Languages => fetchLanguages_resume out s
  | Activity => fetchActivityData_resume out s
  | Insights => fetchRepoInsights_resume out s
  | Trends => fetchLanguageTrends_resume out s
  | Contributions => fetchContributionData_resume out s
  end.

(** The cell each key's operation fills, and what it holds when empty. *)
Definition slot (r : resource) (s : State) : value :=
  match r with
  | Profile => userData s
  | Repositories => repositories s
  | Languages => languages s
  | Activity => activityData s
  | Insights => repoInsights s
  | Trends => languageTrends s
  | Contributions => contributionData s
  end.

Definition empty_slot (r : resource) : value :=
  match r with
  | Repositories => Arr []
  | _ => Null
  end.

(** *** [loadUserData] *)

(** The updater handed to [setRecentSearches]. *)
Definition addRecentSearch (newUsername : string) (prev : list string)
  : list string :=
  let filtered := filter (fun name => name <> newUsername) prev in
  take 5 (newUsername :: filtered).

(** The [finally] block. *)
Definition loadUserData_finally (s : State) : State :=
  setIsLoadingRef false (setIsLoading false s).

(** From the call to the first [await]: the two early returns, or the
    reset and the start of the profile fetch, whose endpoint is given. *)
Definition loadUserData_start (newUsername : string) (s : State)
  : State * option string :=
  if String.eqb newUsername "" then
    (setError (Some "Username is required") s, None)
  else if isLoadingRef s then
    (s, None)
  else
    let s := setIsLoadingRef true s in
    let s := clearUserData s in
    let s := setUsername newUsername s in
    let s :=
      if negb (String.eqb newUsername "")
      then setRecentSearches (addRecentSearch newUsername) s
      else s in
    let s := setIsLoading true s in
    let s := setError None s in
    let '(s, endpoint) := fetchUserProfile_start newUsername s in
    (s, Some endpoint).

(** From the profile to the second [await]: the not-found return (through
    [finally]), or the start of the six other fetches, in source order. *)
Definition loadUserData_fan_out (newUsername : string) (profile : value)
    (s : State) : State * list (resource * string) :=
  if negb (truthy profile) then
    let s := setError (Some ("User " +:+ newUsername
                             +:+ " not found or API error occurred")) s in
    let s := setIsLoadingRef false s in
    (loadUserData_finally s, [])
  else
    let '(s, e1) := fetchRepositories_start newUsername s in
    let '(s, e2) := fetchLanguages_start newUsername s in
    let '(s, e3) := fetchActivityData_start newUsername None s in
    let '(s, e4) := fetchRepoInsights_start newUsername s in
    let '(s, e5) := fetchLanguageTrends_start newUsername s in
    let '(s, e6) := fetchContributionData_start newUsername None s in
    (s, [(Repositories, e1); (Languages, e2); (Activity, e3); (Insights, e4);
         (Trends, e5); (Contributions, e6)]).

(** *** The persistence of recent searches *)

Definition storage_key : string := "recentSearches".

(** [JSON.stringify] of a string: quotes, with the two-character escapes
    and [\u00XX] for the other control characters. *)
Definition hex_digit (n : N) : Ascii.ascii :=
  Ascii.ascii_of_N (if (n <? 10)%N then 48 + n else 87 + n).

Definition dquote : string := String (Ascii.ascii_of_N 34) "".
Definition backslash : string := String (Ascii.ascii_of_N 92) "".

Definition quote_char (c : Ascii.ascii) : string :=
  let n := Ascii.N_of_ascii c in
  if (n =? 34)%N then backslash +:+ dquote
  else if (n =? 92)%N then backslash +:+ backslash
  else if (n =? 8)%N then backslash +:+ "b"
  else if (n =? 9)%N then backslash +:+ "t"
  else if (n =? 10)%N then backslash +:+ "n"
  else if (n =? 12)%N then backslash +:+ "f"
  else if (n =? 13)%N then backslash +:+ "r"
  else if (n <? 32)%N then
    backslash +:+ "u00"
      +:+ String (hex_digit (n / 16)) (String (hex_digit (n mod 16)) "")
  else String c "".

Fixpoint quote_chars (s : string) : string :=
  match s with
  | EmptyString => ""
  | String c rest => quote_char c +:+ quote_chars rest
  end.

Definition quote (s : string) : string := dquote +:+ quote_chars s +:+ dquote.

Fixpoint join_comma (parts : list string) : string :=
  match parts with
  | [] => ""
  | [p] => p
  | p :: rest => p +:+ "," +:+ join_comma rest
  end.

(** [JSON.stringify(recentSearches)] *)
Definition JSON_stringify (names : list string) : string :=
  "[" +:+ join_comma (map quote names) +:+ "]".

(** The browser's [localStorage]: [getItem] is lookup, [setItem] insert. *)
Abbreviation Storage := (gmap string string).

(** The initialiser of the [recentSearches] cell.  [JSON_parse] is the
    host's parser. *)
Definition initRecentSearches (JSON_parse : string -> completion value)
    (localStorage : Storage) : value :=
  match localStorage !! storage_key with
  | Some saved =>
      if negb (String.eqb saved "") then
        match JSON_parse saved with
        | Normal parsed => parsed
        | Throw e => Arr []
        end
      else Arr []
  | None => Arr []
  end.

(** The body of the effect that depends on [recentSearches]. *)
Definition saveRecentSearches (names : list string) (localStorage : Storage)
  : Storage :=
  if (0 <? length names)%nat
  then <[storage_key := JSON_stringify names]> localStorage
  else localStorage.


(** *** The event loop

    A request in flight remembers the operation waiting on it: which key,
    for which username, and whether the operation was called by a view
    ([Standalone]) or by [loadUserData] ([Composite]). *)
Inductive owner : Type := Standalone | Composite.

#[global] Instance owner_eq_dec : EqDecision owner.
Proof. solve_decision. Defined.

Record Request : Type := mkRequest {
  req_resource : resource;
  req_username : string;
  req_endpoint : string;
  req_owner : owner
}.

(** The provider, the requests its operations wait on, the endpoints asked
    of the client so far (oldest first) and the browser's storage. *)
Record World : Type := mkWorld {
  store : State;
  inflight : list Request;
  issued : list string;
  localStorage : gmap string string
}.

(** What a view or the network can do to the provider. *)
Inductive event : Type :=
| LoadUserData (newUsername : string)
| Fetch (r : resource) (username : string) (days : option N)
| ClearUserData
| SetUsername (newUsername : string)
| Settle (i : nat) (out : completion value).

Definition composite_pending (reqs : list Request) : bool :=
  existsb (fun q => bool_decide (req_owner q = Composite)) reqs.

(** The handler of an event, up to the next suspension of everything it
    resumes. *)
Definition handle (e : event) (w : World) : World :=
  match e with
  | LoadUserData newUsername =>
      match loadUserData_start newUsername (store w) with
      | (s, Some endpoint) =>
          mkWorld s
            (inflight w ++ [mkRequest Profile newUsername endpoint Composite])
            (issued w ++ [endpoint]) (localStorage w)
      | (s, None) => mkWorld s (inflight w) (issued w) (localStorage w)
      end
  | Fetch r username days =>
      let '(s, endpoint) := fetch_start r username days (store w) in
      mkWorld s (inflight w ++ [mkRequest r username endpoint Standalone])
        (issued w ++ [endpoint]) (localStorage w)
  | ClearUserData =>
      mkWorld (clearUserData (store w)) (inflight w) (issued w) (localStorage w)
  | SetUsername newUsername =>
      mkWorld (setUsername newUsername (store w)) (inflight w) (issued w)
        (localStorage w)
  | Settle i out =>
      match inflight w !! i with
      | None => w
      | Some q =>
          let rest := delete i (inflight w) in
          let '(s, result) :=
            fetch_resume (req_resource q) (req_username q) out (store w) in
          match req_owner q, req_resource q with
          | Standalone, _ => mkWorld s rest (issued w) (localStorage w)
          | Composite, Profile =>
              (* [await fetchUserProfile(newUsername)] resumes *)
              let '(s, started) :=
                loadUserData_fan_out (req_username q) result s in
              mkWorld s
                (rest ++ map (fun '(r, endpoint) =>
                                mkRequest r (req_username q) endpoint Composite)
                             started)
                (issued w ++ map snd started) (localStorage w)
          | Composite, _ =>
              (* [await Promise.allSettled([...])] resumes once all six have
                 settled *)
              if composite_pending rest
              then mkWorld s rest (issued w) (localStorage w)
              else mkWorld (loadUserData_finally s) rest (issued w)
                     (localStorage w)
          end
      end
  end.

(** React commits the new state; the persistence effect runs when the
    array in [recentSearches] is not the one of the previous commit. *)
Definition commit (before : State) (w : World) : World :=
  if bool_decide (recentSearchesRef (store w) = recentSearchesRef before)
  then w
  else mkWorld (store w) (inflight w) (issued w)
         (saveRecentSearches (recentSearches (store w)) (localStorage w)).

Definition step (w : World) (e : event) : World :=
  commit (store w) (handle e w).

Definition run (w : World) (events : list event) : World :=
  foldl step w events.

(** What is there once the provider has mounted: the saved searches read
    back, the effect run once.  A saved value that is not an array of
    strings leaves no well-formed provider. *)
Definition usernames_of (v : value) : option (list string) :=
  match v with
  | Arr items =>
      mapM (fun item => match item with Str s => Some s | _ => None end) items
  | _ => None
  end.

Definition mounted (saved : list string) (storage : gmap string string)
  : World :=
  mkWorld (initial_state saved) [] [] (saveRecentSearches saved storage).

Definition mount (JSON_parse : string -> completion value)
    (storage : gmap string string) : option World :=
  saved ← usernames_of (initRecentSearches JSON_parse storage) ;
  Some (mounted saved storage).

(** A fresh provider over empty storage. *)
Definition fresh : World := mounted [] ∅.

(** The aggregate flag agrees with the seven flags. *)
Definition in_sync (s : State) : Prop :=
  isLoading s = Flags.some (loadingStates s).

(** A call result the operations treat as no data. *)
Definition absent (out : completion value) : bool :=
  match out with
  | Normal data => negb (truthy data)
  | Throw _ => true
  end.


(** ** The vocabulary of the properties *)

(** The error body names no detail: it did not parse, or it parsed to
    something other than [null] that has no [detail] property. *)
Definition detail_absent (body : completion value) : Prop :=
  match body with
  | Throw _ => True
  | Normal (Obj props) => "detail" ∉ props.*1
  | Normal Null | Normal Undefined => False
  | Normal _ => True
  end.


(** The keys with a request in flight. *)
Definition pending (w : World) : list resource :=
  map req_resource (inflight w).

(** The requests in flight that belong to a load. *)
Definition composites (reqs : list Request) : list Request :=
  filter (fun q => req_owner q = Composite) reqs.

(** The aggregate is down and no load is running, yet a fetch started by
    a view is in flight with its flag up. *)
Definition overlap (w : World) : Prop :=
  isLoading (store w) = false /\
  isLoadingRef (store w) = false /\
  exists q, q ∈ inflight w /\ req_owner q = Standalone /\
            Flags.get (req_resource q) (loadingStates (store w)) = true.

(** What every run maintains: a flag that is up has its request in
    flight, a load has requests in flight only while the guard is up, its
    profile request flies without the other six, and the aggregate agrees
    with the flags unless a load ended over a view's fetch. *)
Record coherent (w : World) : Prop := mkCoherent {
  co_flags :
    forall r, Flags.get r (loadingStates (store w)) = true -> r ∈ pending w;
  co_guard : isLoadingRef (store w) = false -> composites (inflight w) = [];
  co_profile :
    Profile ∈ map req_resource (composites (inflight w)) ->
    length (composites (inflight w)) = 1;
  co_sync : in_sync (store w) \/ overlap w
}.



(** What a secondary fetch leaves in its slot. *)
Definition outcome_slot (r : resource) (out : completion value) : value :=
  match out with
  | Normal data => if truthy data then data else empty_slot r
  | Throw _ => empty_slot r
  end.

(** The network answers each key as [resp] says, in any order: [order]
    lists which of the requests in flight settles next. *)
Definition settle_with (resp : resource -> completion value) (w : World)
    (i : nat) : World :=
  match inflight w !! i with
  | Some q => step w (Settle i (resp (req_resource q)))
  | None => w
  end.

(** What holds while the six settle: no error, the profile in place, and
    each secondary slot either still awaited or holding its outcome. *)
Record fanned_out (profile : value) (resp : resource -> completion value)
    (w : World) : Prop := mkFannedOut {
  fanned_error : error (store w) = None;
  fanned_profile : userData (store w) = profile;
  fanned_slots :
    forall r, r ∈ secondary ->
      r ∈ pending w \/ slot r (store w) = outcome_slot r (resp r);
  fanned_requests :
    Forall (fun q => req_owner q = Composite /\ req_resource q ∈ secondary)
      (inflight w)
}.


(** ASCII lower case, to say that two names differ only in case. *)
Definition lower_char (c : Ascii.ascii) : Ascii.ascii :=
  let n := Ascii.N_of_ascii c in
  if (65 <=? n)%N && (n <=? 90)%N then Ascii.ascii_of_N (n + 32) else c.

Fixpoint lower (s : string) : string :=
  match s with
  | EmptyString => EmptyString
  | String c rest => String (lower_char c) (lower rest)
  end.

Definition differ_only_in_case (a b : string) : Prop :=
  a <> b /\ lower a = lower b.

(** The events that are a search. *)
Definition is_load (e : event) : bool :=
  match e with
  | LoadUserData _ => true
  | _ => false
  end.



(** ** More vocabulary: loads, histories, the client behind the provider *)

(** What the requests of a load look like in every run: the guard is up
    only while some are in flight, they were all asked for one username,
    and no key is asked for twice. *)
Record load_shape (w : World) : Prop := mkLoadShape {
  shape_guard : isLoadingRef (store w) = true -> composites (inflight w) <> [];
  shape_user :
    forall q q', q ∈ composites (inflight w) -> q' ∈ composites (inflight w) ->
                 req_username q = req_username q';
  shape_nodup : NoDup (map req_resource (composites (inflight w)))
}.


(** The endpoints a load asks for when the profile is found, in the order
    it asks for them. *)
Definition load_endpoints (u : string) : list string :=
  [Api.getUserProfile u;
   Api.getUserRepositories u "updated" "desc";
   Api.getUserLanguages u;
   Api.getActivityTimeline u 30;
   Api.getRepositoryInsights u;
   Api.getLanguageTrends u;
   Api.getContributionHeatmap u 365].

(** The state a load for [u] ends in, started from [s0], when the profile
    is found and the six other calls yield what [resp] says. *)
Definition loaded_state (u : string) (profile : value)
    (resp : resource -> completion value) (s0 : State) : State :=
  mkState u profile
    (outcome_slot Repositories (resp Repositories))
    (outcome_slot Languages (resp Languages))
    (outcome_slot Activity (resp Activity))
    (outcome_slot Insights (resp Insights))
    (outcome_slot Trends (resp Trends))
    (outcome_slot Contributions (resp Contributions))
    false Flags.initial None false
    (addRecentSearch u (recentSearches s0)) (S (recentSearchesRef s0)).

(** What holds, besides [fanned_out], while the six settle. *)
Record settling (u : string) (s0 : State) (calls : list string)
    (storage : gmap string string) (w : World) : Prop := mkSettling {
  settling_username : username (store w) = u;
  settling_recent : recentSearches (store w) = addRecentSearch u (recentSearches s0);
  settling_ref : recentSearchesRef (store w) = S (recentSearchesRef s0);
  settling_profile_flag : Flags.get Profile (loadingStates (store w)) = false;
  settling_flags :
    forall r, r ∈ secondary ->
      r ∈ pending w \/ Flags.get r (loadingStates (store w)) = false;
  settling_end :
    inflight w <> [] \/
    (isLoading (store w) = false /\ isLoadingRef (store w) = false);
  settling_issued : issued w = calls;
  settling_storage : localStorage w = storage
}.


(** A history as this code writes it: no name twice, at most five, none
    empty. *)
Definition tidy_history (names : list string) : Prop :=
  NoDup names /\ length names <= 5 /\ "" ∉ names.

(** A stand-in for the host's parser on the texts this code stores when no
    name needs an escape: an array of quoted names.  [phase] is where the
    scan is: 0 before the bracket, 1 after it, 2 inside a name, 3 after a
    name, 4 after a comma, 5 after the closing bracket. *)
Fixpoint scan_names (text : string) (phase : nat) (name : string)
    (names : list string) : option (list string) :=
  match text with
  | EmptyString => if Nat.eqb phase 5 then Some names else None
  | String c rest =>
      let n := Ascii.N_of_ascii c in
      match phase with
      | 0 => if (n =? 91)%N then scan_names rest 1 "" names else None
      | 1 => if (n =? 34)%N then scan_names rest 2 "" names
             else if (n =? 93)%N then scan_names rest 5 "" names else None
      | 2 => if (n =? 34)%N then scan_names rest 3 "" (names ++ [name])
             else if (n =? 92)%N then None
             else scan_names rest 2 (name +:+ String c "") names
      | 3 => if (n =? 44)%N then scan_names rest 4 "" names
             else if (n =? 93)%N then scan_names rest 5 "" names else None
      | 4 => if (n =? 34)%N then scan_names rest 2 "" names else None
      | _ => None
      end
  end.

Definition parse_plain_names (text : string) : completion value :=
  match scan_names text 0 "" [] with
  | Some names => Normal (Arr (map Str names))
  | None => Throw (mkError (Some "Unexpected token"))
  end.


(** The line [fetchApi] logs before it calls [fetch]. *)
Definition request_line (endpoint : string) : Api.line :=
  Api.console_log
    [Api.AVal (Str ("Requesting: " +:+ Api.API_BASE_URL +:+ endpoint))].

(** The body [fetch] delivered, when the status is 2xx and the body parses. *)
Definition delivered (out : Api.FetchOutcome) : option value :=
  match out with
  | Normal r =>
      if Api.ok r then
        match Api.json r with
        | Normal v => Some v
        | Throw _ => None
        end
      else None
  | Throw _ => None
  end.

(** What a view or the network can do when the client of this repository
    sits between the provider and the network: a request in flight settles
    with what [fetchApi] makes of the host's [fetch]. *)
Inductive action : Type :=
| CallLoadUserData (newUsername : string)
| CallFetch (r : resource) (username : string) (days : option N)
| CallClearUserData
| CallSetUsername (newUsername : string)
| Respond (i : nat) (net : string -> Api.FetchOutcome).

Definition event_of (w : World) (a : action) : event :=
  match a with
  | CallLoadUserData newUsername => LoadUserData newUsername
  | CallFetch r username days => Fetch r username days
  | CallClearUserData => ClearUserData
  | CallSetUsername newUsername => SetUsername newUsername
  | Respond i net =>
      match inflight w !! i with
      | Some q => Settle i (Api.fetchApi (req_endpoint q) net).2
      | None => Settle i (Normal Null)
      end
  end.

Definition act (w : World) (a : action) : World := step w (event_of w a).

Definition drive (w : World) (actions : list action) : World :=
  foldl act w actions.

(** The messages the error slot can hold behind this client. *)
Inductive expected_error : option string -> Prop :=
| error_unset : expected_error None
| error_required : expected_error (Some "Username is required")
| error_not_found u : expected_error (Some ("User " +:+ u +:+ " not found"))
| error_not_found_or_api u :
    expected_error (Some ("User " +:+ u +:+ " not found or API error occurred")).

(** The [LanguageTrends] component: its three cells and its own fetch,
    cut at the [await] like the provider's. *)
Module LanguageTrends.

Record Cells : Type := mkCells {
  trends : value;
  loading : bool;
  error : option string
}.

Definition fetchLanguageTrends_start (username : string) (c : Cells)
  : Cells * string :=
  let c := mkCells (trends c) true (error c) in
  let c := mkCells (trends c) (loading c) None in
  (c, Api.getLanguageTrends username).

Definition fetchLanguageTrends_resume (out : completion value) (c : Cells)
  : Cells :=
  let c :=
    match out with
    | Normal data => mkCells data (loading c) (error c)
    | Throw _ =>
        mkCells (trends c) (loading c)
          (Some "Failed to load language trends. Please try again later.")
    end in
  mkCells (trends c) false (error c).

(** The whole call against the client of this repository. *)
Definition fetchLanguageTrends (net : string -> Api.FetchOutcome)
    (username : string) (c : Cells) : Cells :=
  let '(c, endpoint) := fetchLanguageTrends_start username c in
  fetchLanguageTrends_resume (Api.fetchApi endpoint net).2 c.

End LanguageTrends.


(** ** Date utilities: [utils/dateUtils.js]

    [contributions] is an object from dates to counts: its own properties
    in insertion order, keys distinct.  The host's [Array.prototype.sort]
    and [new Date(date).getDay()] are parameters. *)
Module DateUtils.

(** [contributions[date]] *)
Fixpoint prop (date : string) (contributions : list (string * float))
  : option float :=
  match contributions with
  | [] => None
  | (key, n) :: rest => if String.eqb key date then Some n else prop date rest
  end.

(** [contributions[date] > 0] *)
Definition positive (contributions : list (string * float)) (date : string)
  : bool :=
  match prop date contributions with
  | Some n => PrimFloat.ltb 0 n
  | None => false
  end.

(** [contributions[date] || 0] *)
Definition count_or_zero (contributions : list (string * float))
    (date : string) : float :=
  match prop date contributions with
  | Some n => if negb (PrimFloat.eqb n 0 || PrimFloat.is_nan n) then n else 0%float
  | None => 0%float
  end.

(** The [for ... of] loop of [calculateCurrentStreak]. *)
Fixpoint current_loop (contributions : list (string * float))
    (dates : list string) (streak : nat) : nat :=
  match dates with
  | [] => streak
  | date :: rest =>
      if positive contributions date
      then current_loop contributions rest (S streak)
      else streak
  end.

Definition calculateCurrentStreak (sort : list string -> list string)
    (contributions : list (string * float)) : nat :=
  let sortedDates := rev (sort (map fst contributions)) in
  current_loop contributions sortedDates 0.

(** The [for ... of] loop of [calculateLongestStreak]. *)
Fixpoint longest_loop (contributions : list (string * float))
    (dates : list string) (currentStreak longestStreak : nat) : nat :=
  match dates with
  | [] => longestStreak
  | date :: rest =>
      if positive contributions date
      then
        let currentStreak := S currentStreak in
        let longestStreak := Nat.max longestStreak currentStreak in
        longest_loop contributions rest currentStreak longestStreak
      else longest_loop contributions rest 0 longestStreak
  end.

Definition calculateLongestStreak (sort : list string -> list string)
    (contributions : list (string * float)) : nat :=
  let sortedDates := sort (map fst contributions) in
  longest_loop contributions sortedDates 0 0.

(** The value of [currentStreak] when the loop of
    [calculateLongestStreak] ends. *)
Fixpoint streak_at_end (contributions : list (string * float))
    (dates : list string) (currentStreak : nat) : nat :=
  match dates with
  | [] => currentStreak
  | date :: rest =>
      if positive contributions date
      then streak_at_end contributions rest (S currentStreak)
      else streak_at_end contributions rest 0
  end.

(** An entry of a week. *)
Record Day : Type := mkDay { date : string; count : float }.

(** [{ date, count: contributions[date] || 0 }] *)
Definition entry (contributions : list (string * float)) (date : string) : Day :=
  mkDay date (count_or_zero contributions date).

(** The [forEach] of [groupDatesByWeek], on [weeks] and [currentWeek]. *)
Fixpoint group_loop (getDay : string -> float)
    (contributions : list (string * float)) (dates : list string)
    (weeks : list (list Day)) (currentWeek : list Day)
  : list (list Day) * list Day :=
  match dates with
  | [] => (weeks, currentWeek)
  | date :: rest =>
      let dayOfWeek := getDay date in
      let '(weeks, currentWeek) :=
        if PrimFloat.eqb dayOfWeek 0 && (0 <? length currentWeek)%nat
        then (weeks ++ [currentWeek], [])
        else (weeks, currentWeek) in
      let currentWeek := currentWeek ++ [entry contributions date] in
      let '(weeks, currentWeek) :=
        if (length currentWeek =? 7)%nat
        then (weeks ++ [currentWeek], [])
        else (weeks, currentWeek) in
      group_loop getDay contributions rest weeks currentWeek
  end.

Definition groupDatesByWeek (sort : list string -> list string)
    (getDay : string -> float) (contributions : list (string * float))
  : list (list Day) :=
  let sortedDates := sort (map fst contributions) in
  let '(weeks, currentWeek) :=
    group_loop getDay contributions sortedDates [] [] in
  if (0 <? length currentWeek)%nat then weeks ++ [currentWeek] else weeks.

(** [new Date(date).getDay() === 0] *)
Definition on_sunday (getDay : string -> float) (d : Day) : bool :=
  PrimFloat.eqb (getDay (date d)) 0.

(** A week as the grouping leaves it: one to seven days, no Sunday after
    the first. *)
Definition well_cut (getDay : string -> float) (week : list Day) : Prop :=
  0 < length week <= 7 /\ Forall (fun d => on_sunday getDay d = false) (tail week).

End DateUtils.

(** A stand-in for the host's default sort: by bytes. *)
Definition sort_by_bytes : list string -> list string :=
  merge_sort (fun a b => Is_true (String.leb a b)).

(** A stand-in for [getDay] that is right about the Sundays of January
    2024 (the 7th, 14th, 21st and 28th); every other date reads as 1. *)
Definition january_2024_day (date : string) : float :=
  if String.eqb date "2024-01-07" || String.eqb date "2024-01-14"
     || String.eqb date "2024-01-21" || String.eqb date "2024-01-28"
  then 0%float else 1%float.


(** * Properties *)

(** ** Worked calls of the client and of the serialiser *)

Example fetchApi_404 :
  Api.fetchApi "/users/ghost"
    (fun _ => Normal (Api.mkResponse 404 (Normal (Obj [("detail", Str "Not Found")]))))
  = ([Api.console_log [Api.AVal (Str "Requesting: http://localhost:8000/api/v1/users/ghost")];
      Api.console_error [Api.AVal (Str "API Error: /users/ghost"); Api.AVal (Str "Not Found")]],
     Normal Null).
Proof. vm_compute. reflexivity. Qed.

Example fetchApi_500_no_body :
  Api.fetchApi "/users/ghost"
    (fun _ => Normal (Api.mkResponse 500 (Throw (mkError (Some "Unexpected token <")))))
  = ([Api.console_log [Api.AVal (Str "Requesting: http://localhost:8000/api/v1/users/ghost")];
      Api.console_error [Api.AVal (Str "API Error: /users/ghost"); Api.AVal (Str "API Error: 500")]],
     Normal Null).
Proof. vm_compute. reflexivity. Qed.

Example stringify_two : JSON_stringify ["octocat"; "torvalds"]
  = "[" +:+ dquote +:+ "octocat" +:+ dquote +:+ "," +:+ dquote +:+ "torvalds"
    +:+ dquote +:+ "]".
Proof. reflexivity. Qed.


(** ** What the API client guarantees *)

Section ApiClient.
Import Api.

Lemma own_prop_missing k props : k ∉ props.*1 -> own_prop k props = Undefined.
Proof.
  induction props as [|[k' v] props IH]; simpl; [done|].
  intros Hk. apply not_elem_of_cons in Hk as [Hne Hk].
  destruct (String.eqb_spec k' k); [congruence | auto].
Qed.

Lemma get_detail_absent body :
  detail_absent body ->
  get (match body with Normal v => v | Throw _ => Obj [] end) "detail"
  = Normal Undefined.
Proof.
  destruct body as [[]|]; simpl; try done.
  intros H. by rewrite own_prop_missing.
Qed.

(** C7. [fetchApi] always completes normally.  A rejected [fetch] gives
    [null]; a response outside 200..299 gives [null], and when its body
    names no detail the message logged is "API Error: " followed by the
    status; a 2xx response whose body parses gives that body as it is. *)
Theorem fetchApi_never_raises (endpoint : string) (net : string -> FetchOutcome) :
  let url := API_BASE_URL +:+ endpoint in
  let run := fetchApi endpoint net in
  (exists v, run.2 = Normal v) /\
  (forall e, net url = Throw e -> run.2 = Normal Null) /\
  (forall r, net url = Normal r -> ok r = false ->
     run.2 = Normal Null /\
     (detail_absent (json r) ->
      console_error [AVal (Str ("API Error: " +:+ endpoint));
                     AVal (Str ("API Error: " +:+ digits (status r)))] ∈ run.1)) /\
  (forall r v, net url = Normal r -> ok r = true -> json r = Normal v ->
     run.2 = Normal v).
Proof.
  intros url run. subst run. unfold fetchApi. fold url.
  split; [|split; [|split]].
  - destruct (net url) as [r|e]; simpl; [|eauto].
    destruct (ok r); simpl.
    + destruct (json r); simpl; eauto.
    + destruct (json r) as [[]|]; simpl; eauto.
  - intros e ->. reflexivity.
  - intros r -> Hok. simpl. rewrite Hok. simpl. split.
    + destruct (json r) as [[]|]; reflexivity.
    + intros Habs. unfold await, catch_with.
      replace (match json r with Normal a => Normal a | Throw _ => Normal (Obj []) end)
        with (Normal (A:=value) (match json r with Normal v => v | Throw _ => Obj [] end))
        by (by destruct (json r)).
      simpl. rewrite (get_detail_absent _ Habs). simpl. set_solver.
  - intros r v -> Hok Hv. simpl. rewrite Hok, Hv. reflexivity.
Qed.

(** A 503 whose body is not JSON: [null] comes back and the fallback
    message is on the console. *)
Lemma fetchApi_never_raises_witness :
  let net := fun _ : string =>
    Normal (mkResponse 503 (Throw (mkError (Some "Unexpected token <")))) in
  (fetchApi "/users/octocat" net).2 = Normal Null /\
  console_error [AVal (Str "API Error: /users/octocat");
                 AVal (Str "API Error: 503")] ∈ (fetchApi "/users/octocat" net).1.
Proof.
  intros net.
  destruct (fetchApi_never_raises "/users/octocat" net) as (_ & _ & Hbad & _).
  destruct (Hbad (mkResponse 503 (Throw (mkError (Some "Unexpected token <"))))
              eq_refl eq_refl) as [Hnull Hlog].
  split; [exact Hnull | exact (Hlog I)].
Defined.

End ApiClient.


(** ** Flags and setters: what each operation writes *)

Lemma Flags_get_set k k' v f :
  Flags.get k' (Flags.set k v f) = if decide (k = k') then v else Flags.get k' f.
Proof. by destruct k, k', f. Qed.

Lemma Flags_some_false f :
  Flags.some f = false <-> forall k, Flags.get k f = false.
Proof.
  split.
  - destruct f as [[] [] [] [] [] [] []]; simpl; try discriminate.
    by intros _ [].
  - intros H. destruct f as [a b c d e g h].
    pose proof (H Profile); pose proof (H Repositories);
      pose proof (H Languages); pose proof (H Activity);
      pose proof (H Insights); pose proof (H Trends);
      pose proof (H Contributions).
    simpl in *. by subst.
Qed.

Lemma Flags_some_true k f : Flags.get k f = true -> Flags.some f = true.
Proof.
  intros Hk. destruct (Flags.some f) eqn:E; [done|].
  rewrite Flags_some_false in E. by rewrite E in Hk.
Qed.

Create HintDb ops discriminated.
#[global] Hint Unfold fetch_start fetch_resume
  fetchUserProfile_start fetchUserProfile_resume
  fetchRepositories_start fetchRepositories_resume
  fetchLanguages_start fetchLanguages_resume
  fetchActivityData_start fetchActivityData_resume
  fetchRepoInsights_start fetchRepoInsights_resume
  fetchLanguageTrends_start fetchLanguageTrends_resume
  fetchContributionData_start fetchContributionData_resume : ops.

Lemma updateLoadingState_in_sync k v s : in_sync (updateLoadingState k v s).
Proof. reflexivity. Qed.

(** Every fetch operation leaves, at both of its ends, the aggregate equal
    to the disjunction of the flags, and touches no flag but its own. *)
Lemma fetch_start_flags r u days s :
  let s' := (fetch_start r u days s).1 in
  loadingStates s' = Flags.set r true (loadingStates s) /\
  isLoading s' = Flags.some (loadingStates s') /\
  isLoadingRef s' = isLoadingRef s.
Proof. by destruct r. Qed.

Lemma fetch_resume_flags r u out s :
  let s' := (fetch_resume r u out s).1 in
  loadingStates s' = Flags.set r false (loadingStates s) /\
  isLoading s' = Flags.some (loadingStates s') /\
  isLoadingRef s' = isLoadingRef s.
Proof.
  destruct r, out as [data|e]; autounfold with ops;
    try destruct (truthy data); done.
Qed.

Lemma commit_store before w : store (commit before w) = store w.
Proof. unfold commit. by case_bool_decide. Qed.

Lemma commit_inflight before w : inflight (commit before w) = inflight w.
Proof. unfold commit. by case_bool_decide. Qed.


Lemma commit_same_ref before w :
  recentSearchesRef (store w) = recentSearchesRef before -> commit before w = w.
Proof. intros H. unfold commit. by rewrite bool_decide_eq_true_2. Qed.

(** ** The equations of [handle] at a settling request *)

Lemma handle_settle_none w i out :
  inflight w !! i = None -> handle (Settle i out) w = w.
Proof. intros H. simpl. by rewrite H. Qed.

Lemma handle_settle_standalone w i q out :
  inflight w !! i = Some q -> req_owner q = Standalone ->
  handle (Settle i out) w
  = mkWorld (fetch_resume (req_resource q) (req_username q) out (store w)).1
      (delete i (inflight w)) (issued w) (localStorage w).
Proof.
  intros Hq Ho. simpl. rewrite Hq, Ho.
  by destruct (fetch_resume _ _ _ _).
Qed.

Lemma handle_settle_profile w i q out :
  inflight w !! i = Some q -> req_owner q = Composite ->
  req_resource q = Profile ->
  handle (Settle i out) w
  = let done := fetchUserProfile_resume (req_username q) out (store w) in
    let next := loadUserData_fan_out (req_username q) done.2 done.1 in
    mkWorld next.1
      (delete i (inflight w)
         ++ map (fun '(r, endpoint) =>
                   mkRequest r (req_username q) endpoint Composite) next.2)
      (issued w ++ map snd next.2) (localStorage w).
Proof.
  intros Hq Ho Hr. simpl. rewrite Hq, Ho, Hr. simpl.
  destruct (fetchUserProfile_resume _ _ _) as [s result]. simpl.
  by destruct (loadUserData_fan_out _ _ _).
Qed.

Lemma handle_settle_secondary w i q out :
  inflight w !! i = Some q -> req_owner q = Composite ->
  req_resource q <> Profile ->
  handle (Settle i out) w
  = let s := (fetch_resume (req_resource q) (req_username q) out (store w)).1 in
    let rest := delete i (inflight w) in
    mkWorld (if composite_pending rest then s else loadUserData_finally s)
      rest (issued w) (localStorage w).
Proof.
  intros Hq Ho Hr. simpl. rewrite Hq, Ho.
  destruct (fetch_resume _ _ _ _) as [s result]. simpl.
  destruct (req_resource q); try done;
    by destruct (composite_pending _).
Qed.

(** What the fan-out leaves when there is a profile: six more flags up,
    the aggregate up, six requests in source order. *)
Lemma loadUserData_fan_out_found u profile s :
  truthy profile = true ->
  let next := loadUserData_fan_out u profile s in
  loadingStates next.1
    = Flags.mk (Flags.profile (loadingStates s)) true true true true true true /\
  isLoading next.1 = true /\
  isLoadingRef next.1 = isLoadingRef s /\
  error next.1 = error s /\
  map fst next.2 = secondary.
Proof.
  intros H. unfold loadUserData_fan_out. rewrite H. simpl.
  repeat split. by destruct (Flags.profile _).
Qed.

Lemma loadUserData_fan_out_missing u profile s :
  truthy profile = false ->
  let next := loadUserData_fan_out u profile s in
  loadingStates next.1 = loadingStates s /\
  isLoading next.1 = false /\
  isLoadingRef next.1 = false /\
  error next.1 = Some ("User " +:+ u +:+ " not found or API error occurred") /\
  next.2 = [].
Proof. intros H. unfold loadUserData_fan_out. rewrite H. simpl. done. Qed.

(** ** What every run maintains *)

Lemma delete_lookup_split {A} (l : list A) i x :
  l !! i = Some x -> l = take i l ++ x :: drop (S i) l.
Proof. intros H. by rewrite take_drop_middle. Qed.

Lemma elem_of_map_delete {A B} (f : A -> B) (l : list A) i x y :
  l !! i = Some x -> y <> f x -> y ∈ map f l -> y ∈ map f (delete i l).
Proof.
  intros Hx Hy. rewrite (delete_lookup_split l i x Hx) at 1.
  rewrite delete_take_drop, !map_app. simpl.
  rewrite !elem_of_app, elem_of_cons. intuition congruence.
Qed.

Lemma started_resources u (started : list (resource * string)) :
  map req_resource
    (map (fun '(r, endpoint) => mkRequest r u endpoint Composite) started)
  = map fst started.
Proof. induction started as [|[r e] l IH]; simpl; congruence. Qed.

Lemma started_composites u (started : list (resource * string)) :
  composites
    (map (fun '(r, endpoint) => mkRequest r u endpoint Composite) started)
  = map (fun '(r, endpoint) => mkRequest r u endpoint Composite) started.
Proof.
  unfold composites. induction started as [|[r e] l IH]; [done|].
  simpl. rewrite filter_cons_True by done. by rewrite IH.
Qed.

Lemma Profile_not_secondary : Profile ∉ secondary.
Proof. by apply (bool_decide_unpack _). Qed.

Lemma composite_pending_composites reqs :
  composite_pending reqs = false <-> composites reqs = [].
Proof.
  unfold composites. induction reqs as [|q reqs IH]; [done|].
  simpl. rewrite filter_cons. case_bool_decide as Hq; simpl.
  - rewrite decide_True by done. split; discriminate.
  - by rewrite decide_False.
Qed.

Lemma composites_app l1 l2 : composites (l1 ++ l2) = composites l1 ++ composites l2.
Proof. apply filter_app. Qed.

Lemma composites_delete_standalone l i q :
  l !! i = Some q -> req_owner q = Standalone ->
  composites (delete i l) = composites l.
Proof.
  intros Hq Ho. rewrite (delete_lookup_split l i q Hq) at 2.
  rewrite delete_take_drop. unfold composites.
  rewrite !filter_app, filter_cons_False; [done|]. by rewrite Ho.
Qed.

Lemma composites_delete_composite l i q :
  l !! i = Some q -> req_owner q = Composite ->
  exists before after,
    composites l = before ++ q :: after /\
    composites (delete i l) = before ++ after.
Proof.
  intros Hq Ho.
  exists (composites (take i l)), (composites (drop (S i) l)). split.
  - rewrite (delete_lookup_split l i q Hq) at 1. unfold composites.
    by rewrite filter_app, filter_cons_True.
  - rewrite delete_take_drop. apply composites_app.
Qed.

Lemma Flags_some_witness f :
  Flags.some f = true -> exists k, Flags.get k f = true.
Proof.
  intros H. destruct f as [a b c d e g h].
  destruct a; [by exists Profile|]. destruct b; [by exists Repositories|].
  destruct c; [by exists Languages|]. destruct d; [by exists Activity|].
  destruct e; [by exists Insights|]. destruct g; [by exists Trends|].
  destruct h; [by exists Contributions|]. done.
Qed.

Lemma coherent_rebuild w s reqs calls storage :
  loadingStates s = loadingStates (store w) ->
  isLoading s = isLoading (store w) ->
  isLoadingRef s = isLoadingRef (store w) ->
  reqs = inflight w ->
  coherent w -> coherent (mkWorld s reqs calls storage).
Proof.
  intros E1 E2 E3 -> [H1 H2 H3 H4].
  constructor; unfold pending, in_sync, overlap in *; simpl;
    rewrite ?E1, ?E2, ?E3; done.
Qed.

Lemma coherent_commit before w : coherent w -> coherent (commit before w).
Proof.
  intros H. unfold commit. case_bool_decide; [done|].
  by apply (coherent_rebuild w).
Qed.

Lemma coherent_mounted saved storage : coherent (mounted saved storage).
Proof.
  constructor; simpl; try done.
  - by intros [].
  - by intros ?%elem_of_nil.
  - by left.
Qed.

(** The state a load is in at its first [await]. *)
Lemma loadUserData_start_entered newUsername s :
  newUsername <> "" ->
  isLoadingRef s = false ->
  let s1 := (loadUserData_start newUsername s).1 in
  error s1 = None /\
  username s1 = newUsername /\
  recentSearches s1 = addRecentSearch newUsername (recentSearches s) /\
  recentSearchesRef s1 = S (recentSearchesRef s) /\
  isLoadingRef s1 = true /\
  isLoading s1 = true /\
  loadingStates s1 = Flags.set Profile true (loadingStates s) /\
  (forall r, slot r s1 = empty_slot r).
Proof.
  intros Hne Hguard. unfold loadUserData_start.
  destruct (String.eqb_spec newUsername ""); [done|].
  rewrite Hguard. simpl. repeat split; by intros [].
Qed.

Lemma handle_loadUserData_entered w newUsername :
  newUsername <> "" ->
  isLoadingRef (store w) = false ->
  handle (LoadUserData newUsername) w
  = mkWorld (loadUserData_start newUsername (store w)).1
      (inflight w
         ++ [mkRequest Profile newUsername (Api.getUserProfile newUsername)
               Composite])
      (issued w ++ [Api.getUserProfile newUsername]) (localStorage w).
Proof.
  intros Hne Hguard. unfold handle, loadUserData_start.
  destruct (String.eqb_spec newUsername ""); [done|].
  by rewrite Hguard.
Qed.

Lemma handle_loadUserData_rejected w newUsername :
  newUsername = "" \/ isLoadingRef (store w) = true ->
  handle (LoadUserData newUsername) w
  = mkWorld (if String.eqb newUsername ""
             then setError (Some "Username is required") (store w)
             else store w)
      (inflight w) (issued w) (localStorage w).
Proof.
  intros H. unfold handle, loadUserData_start.
  destruct (String.eqb_spec newUsername ""); [done|].
  destruct H as [?| ->]; done.
Qed.

Lemma coherent_loadUserData w newUsername :
  coherent w -> coherent (handle (LoadUserData newUsername) w).
Proof.
  intros Hw.
  destruct (decide (newUsername = "")) as [Hempty|Hne].
  { rewrite handle_loadUserData_rejected by auto.
    apply (coherent_rebuild w); try done.
    all: by destruct (String.eqb newUsername ""). }
  destruct (isLoadingRef (store w)) eqn:Hguard.
  { rewrite handle_loadUserData_rejected by auto.
    apply (coherent_rebuild w); try done.
    all: by destruct (String.eqb newUsername ""). }
  destruct Hw as [H1 H2 H3 H4]. specialize (H2 Hguard).
  rewrite handle_loadUserData_entered by done.
  destruct (loadUserData_start_entered newUsername (store w) Hne Hguard)
    as (_ & _ & _ & _ & S5 & S6 & S7 & _).
  constructor; unfold pending; simpl.
  - intros r. rewrite S7, Flags_get_set, map_app, elem_of_app.
    case_decide as Hr; [subst r; right; by left|]. intros Hup. left. by apply H1.
  - by rewrite S5.
  - intros _. by rewrite composites_app, H2.
  - left. unfold in_sync. rewrite S6, S7. symmetry.
    apply (Flags_some_true Profile). by rewrite Flags_get_set, decide_True.
Qed.

Lemma coherent_fetch w r u days :
  coherent w -> coherent (handle (Fetch r u days) w).
Proof.
  intros [H1 H2 H3 H4]. simpl.
  destruct (fetch_start_flags r u days (store w)) as (F1 & F2 & F3).
  destruct (fetch_start r u days (store w)) as [s endpoint]. simpl in *.
  assert (composites
            (inflight w ++ [mkRequest r u endpoint Standalone])
          = composites (inflight w)) as Hc.
  { rewrite composites_app. unfold composites at 2.
    rewrite filter_cons_False by done. apply app_nil_r. }
  constructor; unfold pending; simpl; rewrite ?Hc, ?F3; try done.
  - intros k. rewrite F1, Flags_get_set, map_app, elem_of_app.
    case_decide as Hk; [subst k; right; by left|]. intros Hup. left. by apply H1.
  - by left.
Qed.

(** A load that ends while flags are still up ends on an overlap. *)
Lemma finished_in_sync_or_overlap s rest calls storage :
  (forall r, Flags.get r (loadingStates s) = true -> r ∈ map req_resource rest) ->
  composites rest = [] ->
  isLoading s = false ->
  isLoadingRef s = false ->
  in_sync s \/ overlap (mkWorld s rest calls storage).
Proof.
  intros Hflags Hnone Hdown Hguard.
  destruct (Flags.some (loadingStates s)) eqn:Hsome.
  - right. apply Flags_some_witness in Hsome as [k Hk].
    pose proof (Hflags k Hk) as Hin.
    apply list_elem_of_fmap in Hin as (q & -> & Hq).
    repeat split; try done. exists q. repeat split; try done.
    destruct (req_owner q) eqn:Ho; [done|].
    assert (q ∈ composites rest) as Hqc
      by (apply list_elem_of_filter; by split).
    rewrite Hnone in Hqc. by apply elem_of_nil in Hqc.
  - left. unfold in_sync. by rewrite Hdown, Hsome.
Qed.

Lemma coherent_settle w i out :
  coherent w -> coherent (handle (Settle i out) w).
Proof.
  intros Hw. destruct (inflight w !! i) as [q|] eqn:Hq;
    [|by rewrite handle_settle_none].
  destruct Hw as [H1 H2 H3 H4].
  destruct (fetch_resume_flags (req_resource q) (req_username q) out (store w))
    as (F1 & F2 & F3).
  assert (forall s, loadingStates s
                    = Flags.set (req_resource q) false (loadingStates (store w)) ->
          forall r, Flags.get r (loadingStates s) = true ->
                    r ∈ map req_resource (delete i (inflight w))) as Hrest.
  { intros s Hs r. rewrite Hs, Flags_get_set. case_decide as Hr; [done|].
    intros Hup. apply (elem_of_map_delete _ _ _ q); [done|congruence|].
    by apply H1. }
  destruct (req_owner q) eqn:Ho.
  - (* a view's fetch *)
    rewrite (handle_settle_standalone w i q out Hq Ho).
    constructor; unfold pending; simpl;
      rewrite ?(composites_delete_standalone _ _ _ Hq Ho), ?F3; try done.
    + by apply Hrest.
    + by left.
  - destruct (composites_delete_composite _ _ _ Hq Ho)
      as (before & after & Hall & Hleft).
    assert (isLoadingRef (store w) = true) as Hguard.
    { destruct (isLoadingRef (store w)) eqn:Hg; [done|]. exfalso.
      assert (composites (inflight w) = []) as Hn by auto.
      rewrite Hn in Hall. by destruct before. }
    destruct (decide (req_resource q = Profile)) as [Hr|Hr].
    + (* the profile of a load *)
      assert (composites (delete i (inflight w)) = []) as Hnone.
      { assert (length (composites (inflight w)) = 1) as Hlen.
        { apply H3. rewrite Hall, map_app, elem_of_app. right. simpl.
          rewrite Hr. by left. }
        rewrite Hall, length_app in Hlen. simpl in Hlen. rewrite Hleft.
        destruct before, after; simpl in Hlen; done || lia. }
      rewrite (handle_settle_profile w i q out Hq Ho Hr). cbv zeta.
      rewrite Hr in F1, F2, F3.
      change (fetch_resume Profile ?u ?o ?s)
        with (fetchUserProfile_resume u o s) in F1, F2, F3.
      set (done := fetchUserProfile_resume (req_username q) out (store w)) in *.
      destruct (truthy done.2) eqn:Ht.
      * destruct (loadUserData_fan_out_found (req_username q) _ done.1 Ht)
          as (G1 & G2 & G3 & G4 & G5).
        constructor; unfold pending; simpl;
          rewrite ?map_app, ?composites_app, ?started_resources,
                  ?started_composites, ?Hnone, ?G5; simpl.
        -- intros r Hup. apply elem_of_app. right.
           rewrite G1 in Hup. destruct r; simpl in Hup; try by apply
             (bool_decide_unpack _).
           rewrite F1 in Hup. done.
        -- by rewrite G3, F3, Hguard.
        -- rewrite started_resources, G5. intros Hp.
           by apply Profile_not_secondary in Hp.
        -- left. unfold in_sync. rewrite G1, G2. by destruct (Flags.profile _).
      * destruct (loadUserData_fan_out_missing (req_username q) _ done.1 Ht)
          as (G1 & G2 & G3 & G4 & G5).
        rewrite G5. simpl. rewrite !app_nil_r.
        constructor; unfold pending; simpl; rewrite ?Hnone.
        -- apply Hrest. by rewrite G1, F1, Hr.
        -- done.
        -- by intros ?%elem_of_nil.
        -- apply finished_in_sync_or_overlap; try done.
           apply Hrest. by rewrite G1, F1, Hr.
    + (* one of the six of a load *)
      rewrite (handle_settle_secondary w i q out Hq Ho Hr). cbv zeta.
      set (s := (fetch_resume (req_resource q) (req_username q) out
                   (store w)).1) in *.
      destruct (composite_pending (delete i (inflight w))) eqn:Hmore.
      * constructor; unfold pending; simpl; rewrite ?F3, ?Hguard; try done.
        -- by apply Hrest.
        -- rewrite Hleft. intros Hp.
           assert (length (composites (inflight w)) = 1) as Hlen.
           { apply H3. rewrite Hall, map_app, elem_of_app. simpl.
             rewrite map_app, elem_of_app in Hp. rewrite elem_of_cons.
             tauto. }
           rewrite Hall, length_app in Hlen. simpl in Hlen.
           assert (before ++ after = []) as Hnone
             by (destruct before, after; simpl in Hlen; done || lia).
           rewrite <- Hleft in Hnone.
           apply composite_pending_composites in Hnone. congruence.
        -- by left.
      * apply composite_pending_composites in Hmore.
        constructor; unfold pending; simpl; rewrite ?Hmore.
        -- by apply Hrest.
        -- done.
        -- by intros ?%elem_of_nil.
        -- apply finished_in_sync_or_overlap; try done. by apply Hrest.
Qed.

Lemma coherent_step w e : coherent w -> coherent (step w e).
Proof.
  intros Hw. apply coherent_commit. destruct e as [u|r u days| |u|i out].
  - by apply coherent_loadUserData.
  - by apply coherent_fetch.
  - by apply (coherent_rebuild w).
  - by apply (coherent_rebuild w).
  - by apply coherent_settle.
Qed.





(** ** The aggregate loading flag *)





(** ** The two early returns of [loadUserData] *)

Lemma step_unchanged_store w e :
  handle e w = mkWorld (store w) (inflight w) (issued w) (localStorage w) ->
  step w e = w.
Proof.
  intros H. unfold step. rewrite H. rewrite commit_same_ref; [|done].
  by destruct w.
Qed.




(** C3, as amended.  For a non-empty username, [loadUserData] called
    while the guard is up changes nothing: the provider, the requests in
    flight, the calls made and the storage are the same. *)
Theorem loadUserData_guarded_noop (w : World) (newUsername : string) :
  newUsername <> "" ->
  isLoadingRef (store w) = true ->
  step w (LoadUserData newUsername) = w.
Proof.
  intros Hne Hguard. apply step_unchanged_store.
  unfold handle, loadUserData_start.
  destruct (String.eqb_spec newUsername ""); [done|].
  by rewrite Hguard.
Qed.

Lemma loadUserData_guarded_noop_witness :
  let w := step fresh (LoadUserData "octocat") in
  isLoadingRef (store w) = true /\ step w (LoadUserData "torvalds") = w.
Proof.
  intros w. split; [reflexivity|].
  apply (loadUserData_guarded_noop w "torvalds"); [discriminate | reflexivity].
Defined.

(** C3, as stated, fails at the empty username: the test for it comes
    before the test of the guard, so the error slot is written although a
    load is in progress. *)
Lemma loadUserData_guarded_empty_sets_error :
  let w := step fresh (LoadUserData "octocat") in
  isLoadingRef (store w) = true /\
  error (store w) = None /\
  error (store (step w (LoadUserData ""))) = Some "Username is required".
Proof. vm_compute. repeat split. Qed.


(** ** The profile step *)


Lemma delete_last {A} (l : list A) (x : A) : delete (length l) (l ++ [x]) = l.
Proof. induction l as [|y l IH]; simpl; congruence. Qed.

Lemma lookup_last {A} (l : list A) (x : A) : (l ++ [x]) !! length l = Some x.
Proof. induction l as [|y l IH]; simpl; done. Qed.





(** ** The six secondary fetches *)


(** A secondary fetch writes its own slot, its own flag and the aggregate;
    it returns what it stored. *)
Lemma fetch_resume_secondary r u out s :
  r <> Profile ->
  let res := fetch_resume r u out s in
  slot r res.1 = outcome_slot r out /\
  res.2 = outcome_slot r out /\
  (forall r', r' <> r -> slot r' res.1 = slot r' s) /\
  error res.1 = error s /\
  username res.1 = username s /\
  recentSearches res.1 = recentSearches s /\
  recentSearchesRef res.1 = recentSearchesRef s.
Proof.
  intros Hr. destruct r; [done|..]; autounfold with ops;
    destruct out as [data|e]; simpl; try destruct (truthy data); simpl;
    (repeat split; try done; by intros []).
Qed.

Lemma outcome_slot_absent r out :
  absent out = true -> outcome_slot r out = empty_slot r.
Proof.
  destruct out as [data|e]; simpl; [|done].
  intros Ha. apply negb_true_iff in Ha. by rewrite Ha.
Qed.

Lemma outcome_slot_present r out :
  absent out = false -> out = Normal (outcome_slot r out).
Proof.
  destruct out as [data|e]; simpl; [|done].
  intros Ha. apply negb_false_iff in Ha. by rewrite Ha.
Qed.

(** One secondary operation that gets no data. *)
Lemma secondary_fetch_absent r u out s :
  r ∈ secondary -> absent out = true ->
  let res := fetch_resume r u out s in
  slot r res.1 = empty_slot r /\
  res.2 = empty_slot r /\
  Flags.get r (loadingStates res.1) = false /\
  error res.1 = error s.
Proof.
  intros Hr Ha res.
  assert (r <> Profile) as Hne
    by (intros ->; by apply Profile_not_secondary in Hr).
  destruct (fetch_resume_secondary r u out s Hne) as (E1 & E2 & _ & E4 & _).
  destruct (fetch_resume_flags r u out s) as (F1 & _).
  subst res. rewrite E1, E2, E4, F1, Flags_get_set, ?outcome_slot_absent by done.
  by rewrite decide_True.
Qed.

Lemma fetch_flag_cleared r u out s :
  Flags.get r (loadingStates (fetch_resume r u out s).1) = false.
Proof.
  destruct (fetch_resume_flags r u out s) as (F1 & _).
  rewrite F1, Flags_get_set. by rewrite decide_True.
Qed.



Lemma loadUserData_finally_frame s :
  (forall r, slot r (loadUserData_finally s) = slot r s) /\
  error (loadUserData_finally s) = error s /\
  loadingStates (loadUserData_finally s) = loadingStates s.
Proof. split; [by intros []|done]. Qed.

Lemma fanned_out_settle profile resp w i :
  fanned_out profile resp w -> fanned_out profile resp (settle_with resp w i).
Proof.
  intros [H1 H2 H3 H4]. unfold settle_with.
  destruct (inflight w !! i) as [q|] eqn:Hq; [|by constructor].
  destruct (proj1 (Forall_lookup _ _) H4 i q Hq) as [Ho Hsec].
  assert (req_resource q <> Profile) as Hne
    by (intros E; rewrite E in Hsec; by apply Profile_not_secondary in Hsec).
  destruct (fetch_resume_secondary (req_resource q) (req_username q)
              (resp (req_resource q)) (store w) Hne)
    as (E1 & _ & E3 & E4 & _).
  assert (forall s', (s' = (fetch_resume (req_resource q) (req_username q)
                              (resp (req_resource q)) (store w)).1 \/
                      s' = loadUserData_finally
                             (fetch_resume (req_resource q) (req_username q)
                                (resp (req_resource q)) (store w)).1) ->
            error s' = None /\ userData s' = profile /\
            slot (req_resource q) s'
              = outcome_slot (req_resource q) (resp (req_resource q)) /\
            forall r', r' <> req_resource q -> slot r' s' = slot r' (store w))
    as Hframe.
  { intros s' [-> | ->];
      destruct (loadUserData_finally_frame
                  (fetch_resume (req_resource q) (req_username q)
                     (resp (req_resource q)) (store w)).1) as (L1 & L2 & _);
      rewrite ?L2, ?E4, ?H1; (split; [done|]);
      (split; [rewrite <- H2; try rewrite (L1 Profile); by apply (E3 Profile)|]);
      (split; [by rewrite ?L1|]); intros r' Hr'; rewrite ?L1; by apply E3. }
  unfold step. rewrite (handle_settle_secondary w i q _ Hq Ho Hne). cbv zeta.
  set (s := (fetch_resume (req_resource q) (req_username q)
               (resp (req_resource q)) (store w)).1) in *.
  set (s' := if composite_pending (delete i (inflight w))
             then s else loadUserData_finally s).
  destruct (Hframe s') as (F1 & F2 & F3 & F4);
    [subst s'; destruct (composite_pending _); auto|].
  constructor; rewrite ?commit_store, ?commit_inflight; unfold pending;
    rewrite ?commit_inflight; simpl; try done.
  - intros r Hr. destruct (decide (r = req_resource q)) as [->|Hrq]; [by right|].
    destruct (H3 r Hr) as [Hp|Hs].
    + left. by eapply elem_of_map_delete.
    + right. by rewrite F4.
  - by apply Forall_delete.
Qed.

Lemma fanned_out_settles profile resp order : forall w,
  fanned_out profile resp w ->
  fanned_out profile resp (foldl (settle_with resp) w order).
Proof.
  induction order as [|i order IH]; intros w Hw; [done|].
  simpl. by apply IH, fanned_out_settle.
Qed.


Lemma loadUserData_fan_out_found_slots u profile s :
  truthy profile = true ->
  forall r, slot r (loadUserData_fan_out u profile s).1 = slot r s.
Proof.
  intros H r. unfold loadUserData_fan_out. rewrite H. by destruct r.
Qed.

Lemma fanned_out_established w newUsername profile resp :
  newUsername <> "" ->
  isLoadingRef (store w) = false ->
  inflight w = [] ->
  truthy profile = true ->
  fanned_out profile resp
    (run w [LoadUserData newUsername; Settle 0 (Normal profile)]).
Proof.
  intros Hne Hguard Hidle Ht. simpl. unfold step.
  set (w1 := commit (store w) (handle (LoadUserData newUsername) w)).
  set (q := mkRequest Profile newUsername (Api.getUserProfile newUsername)
              Composite).
  assert (inflight w1 = [q]) as Hin.
  { subst w1. rewrite commit_inflight, handle_loadUserData_entered by done.
    simpl. by rewrite Hidle. }
  assert (store w1 = (loadUserData_start newUsername (store w)).1) as Hst.
  { subst w1. by rewrite commit_store, handle_loadUserData_entered. }
  destruct (loadUserData_start_entered newUsername (store w) Hne Hguard)
    as (S1 & _). rewrite <- Hst in S1.
  rewrite (handle_settle_profile w1 0 q (Normal profile));
    [|by rewrite Hin|done|done].
  cbv zeta. simpl req_username.
  assert (fetchUserProfile_resume newUsername (Normal profile) (store w1)
          = (updateLoadingState Profile false (setUserData profile (store w1)),
             profile)) as Hdone
    by (unfold fetchUserProfile_resume; by rewrite Ht).
  rewrite Hdone. simpl fst. simpl snd.
  destruct (loadUserData_fan_out_found newUsername profile
              (updateLoadingState Profile false (setUserData profile (store w1)))
              Ht) as (G1 & G2 & G3 & G4 & G5).
  pose proof (loadUserData_fan_out_found_slots newUsername profile
                (updateLoadingState Profile false
                   (setUserData profile (store w1))) Ht) as Gs.
  constructor; rewrite ?commit_store; unfold pending;
    rewrite ?commit_inflight; simpl; rewrite ?Hin; simpl;
    rewrite ?started_resources, ?G5.
  - by rewrite G4.
  - exact (Gs Profile).
  - intros r Hr. by left.
  - apply Forall_forall. intros q' Hq'.
    apply list_elem_of_fmap in Hq' as ([r e] & -> & Hre). simpl.
    split; [done|]. rewrite <- G5. by apply (list_elem_of_fmap_2 fst) in Hre.
Qed.

(** C5.  A secondary fetch that gets no data, by an absent result or by a
    raise, leaves its slot empty, returns the empty marker, leaves the
    error slot alone, and its flag is down afterwards on every path.  And
    when a load finds the profile and every secondary fetch but one gets
    data, then once all six have settled, in whatever order, that one slot
    is empty, the other five hold what was fetched, the profile is in
    place and the error slot is unset. *)
Theorem secondary_fetch_absent_is_local :
  (forall r u out s,
     r ∈ secondary -> absent out = true ->
     let res := fetch_resume r u out s in
     slot r res.1 = empty_slot r /\
     res.2 = empty_slot r /\
     Flags.get r (loadingStates res.1) = false /\
     error res.1 = error s) /\
  (forall r u out s,
     Flags.get r (loadingStates (fetch_resume r u out s).1) = false) /\
  (forall w newUsername profile resp order r0,
     newUsername <> "" ->
     isLoadingRef (store w) = false ->
     inflight w = [] ->
     truthy profile = true ->
     r0 ∈ secondary ->
     absent (resp r0) = true ->
     (forall r, r ∈ secondary -> r <> r0 -> absent (resp r) = false) ->
     let w1 := run w [LoadUserData newUsername; Settle 0 (Normal profile)] in
     let w2 := foldl (settle_with resp) w1 order in
     inflight w2 = [] ->
     slot r0 (store w2) = empty_slot r0 /\
     (forall r, r ∈ secondary -> r <> r0 ->
        resp r = Normal (slot r (store w2))) /\
     userData (store w2) = profile /\
     error (store w2) = None).
Proof.
  split; [apply secondary_fetch_absent|].
  split; [apply fetch_flag_cleared|].
  intros w u profile resp order r0 Hne Hguard Hidle Ht Hr0 Habs Hothers w1 w2
    Hdone.
  assert (fanned_out profile resp w2) as [F1 F2 F3 F4].
  { apply fanned_out_settles. by apply fanned_out_established. }
  assert (forall r, r ∈ secondary ->
            slot r (store w2) = outcome_slot r (resp r)) as Hslots.
  { intros r Hr. destruct (F3 r Hr) as [Hp|Hs]; [|done].
    unfold pending in Hp. rewrite Hdone in Hp. by apply elem_of_nil in Hp. }
  repeat split; try done.
  - by rewrite Hslots, outcome_slot_absent.
  - intros r Hr Hrr. rewrite Hslots by done.
    apply outcome_slot_present. by apply Hothers.
Qed.

(** The languages endpoint alone answers with nothing; the six settle out
    of order. *)
Lemma secondary_fetch_absent_is_local_witness :
  let profile := Obj [("login", Str "octocat")] in
  let resp := fun r =>
    match r with
    | Languages => Normal Null
    | Repositories => Normal (Arr [Obj [("name", Str "hello-world")]])
    | _ => Normal (Obj [("total", Num 3)])
    end in
  let w1 := run fresh [LoadUserData "octocat"; Settle 0 (Normal profile)] in
  let w2 := foldl (settle_with resp) w1 [5; 0; 3; 0; 1; 0] in
  slot Languages (store w2) = empty_slot Languages /\
  (forall r, r ∈ secondary -> r <> Languages ->
     resp r = Normal (slot r (store w2))) /\
  userData (store w2) = profile /\
  error (store w2) = None.
Proof.
  intros profile resp.
  destruct secondary_fetch_absent_is_local as (_ & _ & Hload).
  apply (Hload fresh "octocat" profile resp [5; 0; 3; 0; 1; 0] Languages).
  - discriminate.
  - reflexivity.
  - reflexivity.
  - reflexivity.
  - by apply (bool_decide_unpack _).
  - reflexivity.
  - by intros [].
  - vm_compute. reflexivity.
Defined.


(** ** Recent searches *)

Lemma addRecentSearch_cons u prev :
  addRecentSearch u prev = u :: take 4 (filter (fun name => name <> u) prev).
Proof. reflexivity. Qed.

Lemma filter_eq_after_filter_ne (u : string) (l : list string) :
  filter (fun name => name = u) (take 4 (filter (fun name => name <> u) l)) = [].
Proof.
  assert (Forall (fun name => name <> u)
            (take 4 (filter (fun name => name <> u) l))) as Hall.
  { apply Forall_take, Forall_forall. intros x Hx.
    by apply list_elem_of_filter in Hx as [Hx _]. }
  induction Hall as [|x l' Hx _ IH]; [done|].
  by rewrite filter_cons_False.
Qed.

Lemma filter_ne_absent (u : string) (l : list string) :
  u ∉ l -> filter (fun name => name <> u) l = l.
Proof.
  induction l as [|x l IH]; [done|].
  intros [Hx Hl]%not_elem_of_cons.
  rewrite filter_cons_True by congruence. by rewrite IH.
Qed.

Lemma take_4_of_5 {A} (l : list A) :
  length l = 5 -> exists oldest, l = take 4 l ++ [oldest] /\ last l = Some oldest.
Proof.
  destruct l as [|a [|b [|c [|d [|e [|f l]]]]]]; try done.
  intros _. by exists e.
Qed.

(** C6.  A search that passes both tests of [loadUserData] leaves a list
    of at most five names with the searched one first and nowhere else;
    the rest is the old list without that name, in the old order, cut to
    four; a new name pushed on a full list drops the last one.  The two
    examples of the specification come out as written. *)
Theorem recentSearches_after_search :
  (forall (w : World) (newUsername : string),
     newUsername <> "" ->
     isLoadingRef (store w) = false ->
     length (recentSearches (store w)) <= 5 ->
     let prev := recentSearches (store w) in
     let next := recentSearches (store (step w (LoadUserData newUsername))) in
     length next <= 5 /\
     next !! 0 = Some newUsername /\
     length (filter (fun name => name = newUsername) next) = 1 /\
     tail next = take 4 (filter (fun name => name <> newUsername) prev) /\
     tail next `sublist_of` prev /\
     (newUsername ∉ prev -> length prev = 5 ->
      exists oldest, last prev = Some oldest /\
                     prev = tail next ++ [oldest])) /\
  recentSearches (store (step (mounted ["b"; "a"] ∅) (LoadUserData "a")))
    = ["a"; "b"] /\
  recentSearches
    (store (step (mounted ["e"; "d"; "c2"; "b"; "a"] ∅) (LoadUserData "c")))
    = ["c"; "e"; "d"; "c2"; "b"].
Proof.
  split; [|by vm_compute].
  intros w u Hne Hguard Hlen prev next.
  assert (next = addRecentSearch u prev) as ->.
  { subst next prev. unfold step.
    rewrite commit_store, handle_loadUserData_entered by done. simpl.
    by destruct (loadUserData_start_entered u (store w) Hne Hguard)
      as (_ & _ & -> & _). }
  rewrite addRecentSearch_cons. simpl.
  split; [rewrite length_take; lia|].
  split; [done|].
  split; [rewrite filter_cons_True by done; simpl;
          by rewrite filter_eq_after_filter_ne|].
  split; [done|].
  split; [etrans; [apply sublist_take | apply sublist_filter]|].
  intros Hnew Hfull. rewrite filter_ne_absent by done.
  destruct (take_4_of_5 prev Hfull) as (oldest & E1 & E2).
  exists oldest. by split.
Qed.

Lemma recentSearches_after_search_witness :
  let w := mounted ["e"; "d"; "c2"; "b"; "a"] ∅ in
  let next := recentSearches (store (step w (LoadUserData "d"))) in
  length next <= 5 /\ next !! 0 = Some "d" /\
  length (filter (fun name => name = "d") next) = 1 /\
  tail next = take 4 (filter (fun name => name <> "d") ["e"; "d"; "c2"; "b"; "a"]).
Proof.
  intros w next.
  destruct recentSearches_after_search as (Hgen & _ & _).
  destruct (Hgen w "d") as (H1 & H2 & H3 & H4 & _);
    [discriminate | reflexivity | simpl; lia |].
  by repeat split.
Defined.


(** ** The local history store *)

Lemma fetch_resume_recentSearches r u out s :
  recentSearches (fetch_resume r u out s).1 = recentSearches s /\
  recentSearchesRef (fetch_resume r u out s).1 = recentSearchesRef s.
Proof.
  destruct r, out as [data|e]; autounfold with ops;
    try destruct (truthy data); done.
Qed.

Lemma loadUserData_fan_out_recentSearches u profile s :
  recentSearches (loadUserData_fan_out u profile s).1 = recentSearches s /\
  recentSearchesRef (loadUserData_fan_out u profile s).1 = recentSearchesRef s.
Proof. unfold loadUserData_fan_out. by destruct (truthy profile). Qed.

(** Only a load that gets past its two tests replaces the array. *)
Lemma handle_recentSearches w e :
  (recentSearches (store (handle e w)) = recentSearches (store w) /\
   recentSearchesRef (store (handle e w)) = recentSearchesRef (store w)) \/
  (exists newUsername,
     e = LoadUserData newUsername /\ newUsername <> "" /\
     isLoadingRef (store w) = false).
Proof.
  destruct e as [u|r u days| |u|i out].
  - destruct (String.eqb_spec u "") as [->|Hne]; [by left|].
    destruct (isLoadingRef (store w)) eqn:Hguard; [|right; eauto].
    left. unfold handle, loadUserData_start.
    destruct (String.eqb_spec u ""); [done|]. by rewrite Hguard.
  - left. by destruct r.
  - by left.
  - by left.
  - left. destruct (inflight w !! i) as [q|] eqn:Hq;
      [|by rewrite handle_settle_none].
    pose proof (fetch_resume_recentSearches (req_resource q) (req_username q)
                  out (store w)) as [R1 R2].
    destruct (req_owner q) eqn:Ho.
    + by rewrite (handle_settle_standalone w i q out Hq Ho).
    + destruct (decide (req_resource q = Profile)) as [Hr|Hr].
      * rewrite (handle_settle_profile w i q out Hq Ho Hr). cbv zeta. simpl.
        rewrite Hr in R1, R2. simpl in R1, R2.
        destruct (loadUserData_fan_out_recentSearches (req_username q)
                    (fetchUserProfile_resume (req_username q) out (store w)).2
                    (fetchUserProfile_resume (req_username q) out (store w)).1)
          as [-> ->].
        done.
      * rewrite (handle_settle_secondary w i q out Hq Ho Hr). cbv zeta. simpl.
        by destruct (composite_pending _).
Qed.

Section LocalHistory.

(** The host's [JSON.parse]. *)
Variable JSON_parse : string -> completion value.


End LocalHistory.




(** ** [fetchUserProfile] on its own *)





(** ** Deduplication is by the exact string *)


Lemma run_recentSearches events : forall w,
  forallb (fun e => negb (is_load e)) events = true ->
  recentSearches (store (run w events)) = recentSearches (store w).
Proof.
  induction events as [|e events IH]; intros w Hall; [done|].
  simpl in Hall. apply andb_prop in Hall as [He Hall]. simpl.
  rewrite IH by done. unfold step. rewrite commit_store.
  destruct (handle_recentSearches w e) as [[H _]|(u & -> & _)]; done.
Qed.

Lemma step_loadUserData_recentSearches w newUsername :
  newUsername <> "" ->
  isLoadingRef (store w) = false ->
  recentSearches (store (step w (LoadUserData newUsername)))
  = addRecentSearch newUsername (recentSearches (store w)).
Proof.
  intros Hne Hguard. unfold step.
  rewrite commit_store, handle_loadUserData_entered by done. cbn [store].
  by destruct (loadUserData_start_entered newUsername (store w) Hne Hguard)
    as (_ & _ & -> & _).
Qed.

(** C10.  Two usernames that differ only in letter case are searched one
    after the other (the first load over before the second starts, no
    other search in between).  Both are then in the list, the second at
    index 0 and the first at index 1. *)
Theorem recentSearches_case_sensitive
    (w : World) (first second : string) (between : list event) :
  differ_only_in_case first second ->
  first <> "" -> second <> "" ->
  isLoadingRef (store w) = false ->
  forallb (fun e => negb (is_load e)) between = true ->
  let w1 := run (step w (LoadUserData first)) between in
  isLoadingRef (store w1) = false ->
  let next := recentSearches (store (step w1 (LoadUserData second))) in
  next !! 0 = Some second /\ next !! 1 = Some first.
Proof.
  intros [Hdiff _] Hf Hs Hguard Hbetween w1 Hguard1 next.
  subst next. rewrite step_loadUserData_recentSearches by done.
  subst w1. rewrite run_recentSearches by done.
  rewrite step_loadUserData_recentSearches by done.
  rewrite !addRecentSearch_cons.
  rewrite filter_cons_True by done. done.
Qed.

Lemma recentSearches_case_sensitive_witness :
  let w1 := run (step fresh (LoadUserData "Foo")) [Settle 0 (Normal Null)] in
  let next := recentSearches (store (step w1 (LoadUserData "foo"))) in
  next !! 0 = Some "foo" /\ next !! 1 = Some "Foo".
Proof.
  apply (recentSearches_case_sensitive fresh "Foo" "foo" [Settle 0 (Normal Null)]).
  - split; [discriminate | reflexivity].
  - discriminate.
  - discriminate.
  - reflexivity.
  - reflexivity.
  - reflexivity.
Defined.


(** * Further properties *)

(** ** One load at a time *)

Lemma composites_nonempty_pending reqs :
  composites reqs <> [] <-> composite_pending reqs = true.
Proof.
  destruct (composite_pending reqs) eqn:E.
  - split; [done|]. intros _ Hnil.
    apply composite_pending_composites in Hnil. congruence.
  - apply composite_pending_composites in E. by rewrite E.
Qed.

Lemma load_shape_rebuild w s reqs calls storage :
  isLoadingRef s = isLoadingRef (store w) ->
  composites reqs = composites (inflight w) ->
  load_shape w -> load_shape (mkWorld s reqs calls storage).
Proof.
  intros E1 E2 [H1 H2 H3]. constructor; simpl; rewrite ?E1, ?E2; done.
Qed.

Lemma load_shape_idle s reqs calls storage :
  isLoadingRef s = false -> composites reqs = [] ->
  load_shape (mkWorld s reqs calls storage).
Proof.
  intros E1 E2. constructor; simpl; rewrite ?E1, ?E2; try done.
  - intros q q' Hq. by apply elem_of_nil in Hq.
  - constructor.
Qed.

Lemma load_shape_mounted saved storage : load_shape (mounted saved storage).
Proof. by apply load_shape_idle. Qed.

Lemma load_shape_step w e :
  coherent w -> load_shape w -> load_shape (step w e).
Proof.
  intros [C1 C2 C3 C4] Hw. pose proof Hw as [H1 H2 H3].
  unfold step.
  assert (forall w', load_shape w' -> load_shape (commit (store w) w')) as Hcommit.
  { intros w' Hw'. unfold commit. case_bool_decide; [done|].
    by apply (load_shape_rebuild w'). }
  apply Hcommit. clear Hcommit.
  destruct e as [u|r u days| |u|i out].
  - (* loadUserData *)
    destruct (decide (u = "")) as [Hempty|Hne];
      [rewrite handle_loadUserData_rejected by auto;
       apply (load_shape_rebuild w); [by destruct (String.eqb u "")|done|done]|].
    destruct (isLoadingRef (store w)) eqn:Hguard;
      [rewrite handle_loadUserData_rejected by auto;
       apply (load_shape_rebuild w);
         [destruct (String.eqb u ""); simpl; congruence|done|done]|].
    rewrite handle_loadUserData_entered by done.
    assert (composites (inflight w) = []) as Hidle by auto.
    assert (composites
              (inflight w ++ [mkRequest Profile u (Api.getUserProfile u) Composite])
            = [mkRequest Profile u (Api.getUserProfile u) Composite]) as Hone.
    { rewrite composites_app, Hidle. unfold composites.
      by rewrite filter_cons_True. }
    constructor; simpl; rewrite Hone.
    + done.
    + intros q q' ->%list_elem_of_singleton ->%list_elem_of_singleton. done.
    + apply NoDup_singleton.
  - (* a view's fetch *)
    simpl. destruct (fetch_start_flags r u days (store w)) as (_ & _ & F3).
    destruct (fetch_start r u days (store w)) as [s endpoint]. simpl in *.
    apply (load_shape_rebuild w); [done| |done]. simpl.
    rewrite composites_app. unfold composites at 2.
    rewrite filter_cons_False by done. apply app_nil_r.
  - by apply (load_shape_rebuild w).
  - by apply (load_shape_rebuild w).
  - (* a request settles *)
    destruct (inflight w !! i) as [q|] eqn:Hq;
      [|by rewrite handle_settle_none].
    destruct (fetch_resume_flags (req_resource q) (req_username q) out (store w))
      as (_ & _ & F3).
    destruct (req_owner q) eqn:Ho.
    { rewrite (handle_settle_standalone w i q out Hq Ho).
      apply (load_shape_rebuild w); [done| |done]. simpl.
      by apply (composites_delete_standalone _ _ q). }
    destruct (composites_delete_composite _ _ _ Hq Ho)
      as (before & after & Hall & Hleft).
    assert (isLoadingRef (store w) = true) as Hguard.
    { destruct (isLoadingRef (store w)) eqn:Hg; [done|]. exfalso.
      assert (composites (inflight w) = []) as Hn by auto.
      rewrite Hn in Hall. by destruct before. }
    destruct (decide (req_resource q = Profile)) as [Hr|Hr].
    + assert (composites (delete i (inflight w)) = []) as Hnone.
      { assert (length (composites (inflight w)) = 1) as Hlen.
        { apply C3. rewrite Hall, map_app, elem_of_app. right. simpl.
          rewrite Hr. by left. }
        rewrite Hall, length_app in Hlen. simpl in Hlen. rewrite Hleft.
        destruct before, after; simpl in Hlen; done || lia. }
      rewrite (handle_settle_profile w i q out Hq Ho Hr). cbv zeta.
      rewrite Hr in F3.
      change (fetch_resume Profile ?u ?o ?s)
        with (fetchUserProfile_resume u o s) in F3.
      set (done := fetchUserProfile_resume (req_username q) out (store w)) in *.
      destruct (truthy done.2) eqn:Ht.
      * destruct (loadUserData_fan_out_found (req_username q) _ done.1 Ht)
          as (G1 & G2 & G3 & G4 & G5).
        constructor; simpl;
          rewrite composites_app, started_composites, Hnone; simpl.
        -- intros _ Hnil. apply (f_equal (map req_resource)) in Hnil.
           rewrite started_resources, G5 in Hnil. done.
        -- intros q1 q2 Hq1 Hq2.
           apply list_elem_of_fmap in Hq1 as ([r1 e1] & -> & _).
           apply list_elem_of_fmap in Hq2 as ([r2 e2] & -> & _). done.
        -- rewrite started_resources, G5. by apply (bool_decide_unpack _).
      * destruct (loadUserData_fan_out_missing (req_username q) _ done.1 Ht)
          as (G1 & G2 & G3 & G4 & G5).
        rewrite G5. simpl. rewrite !app_nil_r. by apply load_shape_idle.
    + rewrite (handle_settle_secondary w i q out Hq Ho Hr). cbv zeta.
      destruct (composite_pending (delete i (inflight w))) eqn:Hmore.
      * constructor; simpl; rewrite Hleft.
        -- intros _. rewrite <- Hleft. by apply composites_nonempty_pending.
        -- intros q1 q2 Hq1 Hq2. apply H2; rewrite Hall, elem_of_app, elem_of_cons;
             rewrite elem_of_app in Hq1, Hq2; tauto.
        -- rewrite Hall, !map_app in H3. simpl in H3. rewrite map_app.
           apply NoDup_app in H3 as (N1 & N2 & N3).
           apply NoDup_cons in N3 as [_ N3].
           apply NoDup_app. split; [done|]. split; [|done].
           intros x Hx Hx'. apply (N2 x Hx). by right.
      * apply composite_pending_composites in Hmore. by apply load_shape_idle.
Qed.

Lemma load_shape_run events : forall w,
  coherent w -> load_shape w -> coherent (run w events) /\ load_shape (run w events).
Proof.
  induction events as [|e events IH]; intros w Hc Hs; [done|].
  simpl. apply IH; [by apply coherent_step | by apply load_shape_step].
Qed.


Lemma run_invariants saved storage events :
  coherent (run (mounted saved storage) events) /\
  load_shape (run (mounted saved storage) events).
Proof.
  apply load_shape_run; [apply coherent_mounted | apply load_shape_mounted].
Qed.

(** X1.  At every observable point of every run the guard is up exactly
    when a request of a load is in flight: it cannot stay up once the
    load's requests have settled, nor be down while one is pending. *)
Theorem guard_up_iff_load_in_flight
    (saved : list string) (storage : gmap string string) (events : list event) :
  let w := run (mounted saved storage) events in
  isLoadingRef (store w) = true <-> composites (inflight w) <> [].
Proof.
  intros w. destruct (run_invariants saved storage events) as [Hc Hs].
  split; [apply (shape_guard _ Hs)|].
  intros Hbusy. destruct (isLoadingRef (store w)) eqn:Hg; [done|].
  by apply (co_guard _ Hc) in Hg.
Qed.

(** X2.  At every observable point of every run the requests in flight
    that belong to a load are those of one load: all for the same
    username, no key twice, the profile request never together with any of
    the other six, hence at most six at once. *)
Theorem one_load_at_a_time
    (saved : list string) (storage : gmap string string) (events : list event) :
  let loads := composites (inflight (run (mounted saved storage) events)) in
  NoDup (map req_resource loads) /\
  (forall q q', q ∈ loads -> q' ∈ loads -> req_username q = req_username q') /\
  (Profile ∈ map req_resource loads -> length loads = 1) /\
  length loads <= 6.
Proof.
  intros loads. destruct (run_invariants saved storage events) as [Hc Hs].
  pose proof (shape_nodup _ Hs) as Hnd. fold loads in Hnd.
  pose proof (co_profile _ Hc) as Hp. fold loads in Hp.
  split; [done|]. split; [apply (shape_user _ Hs)|]. split; [done|].
  destruct (decide (Profile ∈ map req_resource loads)) as [Hin|Hout];
    [rewrite Hp by done; lia|].
  rewrite <- (length_map req_resource).
  change 6 with (length secondary).
  apply submseteq_length, NoDup_submseteq; [done|].
  intros r Hr. destruct r; by apply (bool_decide_unpack _).
Qed.

(** X3.  At every observable point of every run a flag that is up has a
    request for its key in flight; so once nothing is in flight, all seven
    flags, the aggregate and the guard are down. *)
Theorem nothing_in_flight_nothing_loading
    (saved : list string) (storage : gmap string string) (events : list event) :
  let w := run (mounted saved storage) events in
  (forall r, Flags.get r (loadingStates (store w)) = true -> r ∈ pending w) /\
  (inflight w = [] ->
   loadingStates (store w) = Flags.initial /\
   isLoading (store w) = false /\
   isLoadingRef (store w) = false).
Proof.
  intros w. destruct (run_invariants saved storage events) as [Hc Hs].
  fold w in Hc, Hs. split; [apply (co_flags _ Hc)|].
  intros Hidle.
  assert (forall r, Flags.get r (loadingStates (store w)) = false) as Hdown.
  { intros r. destruct (Flags.get r (loadingStates (store w))) eqn:Hr; [|done].
    apply (co_flags _ Hc) in Hr. unfold pending in Hr. rewrite Hidle in Hr.
    by apply elem_of_nil in Hr. }
  split; [|split].
  - pose proof (Hdown Profile); pose proof (Hdown Repositories);
      pose proof (Hdown Languages); pose proof (Hdown Activity);
      pose proof (Hdown Insights); pose proof (Hdown Trends);
      pose proof (Hdown Contributions).
    destruct (loadingStates (store w)). simpl in *. by subst.
  - destruct (co_sync _ Hc) as [Hsync|(Hdownagg & _)]; [|done].
    rewrite Hsync. by apply Flags_some_false.
  - destruct (isLoadingRef (store w)) eqn:Hg; [|done].
    apply (shape_guard _ Hs) in Hg. by rewrite Hidle in Hg.
Qed.

Lemma nothing_in_flight_nothing_loading_witness :
  let w := run fresh [Fetch Repositories "octocat" None;
                      LoadUserData "ghost";
                      Settle 1 (Normal Null);
                      Settle 0 (Normal (Arr []))] in
  loadingStates (store w) = Flags.initial /\
  isLoading (store w) = false /\
  isLoadingRef (store w) = false.
Proof.
  apply (nothing_in_flight_nothing_loading [] ∅
           [Fetch Repositories "octocat" None; LoadUserData "ghost";
            Settle 1 (Normal Null); Settle 0 (Normal (Arr []))]).
  reflexivity.
Defined.


(** ** A load that finds the profile *)

Lemma settling_settle u s0 calls storage profile resp w i :
  fanned_out profile resp w ->
  settling u s0 calls storage w ->
  settling u s0 calls storage (settle_with resp w i).
Proof.
  intros [_ _ _ Hreqs] [S1 S2 S3 S4 S5 S6 S7 S8]. unfold settle_with.
  destruct (inflight w !! i) as [q|] eqn:Hq; [|by constructor].
  destruct (proj1 (Forall_lookup _ _) Hreqs i q Hq) as [Ho Hsec].
  assert (req_resource q <> Profile) as Hne
    by (intros E; rewrite E in Hsec; by apply Profile_not_secondary in Hsec).
  destruct (fetch_resume_secondary (req_resource q) (req_username q)
              (resp (req_resource q)) (store w) Hne)
    as (_ & _ & _ & _ & E5 & E6 & E7).
  destruct (fetch_resume_flags (req_resource q) (req_username q)
              (resp (req_resource q)) (store w)) as (F1 & F2 & F3).
  unfold step. rewrite (handle_settle_secondary w i q _ Hq Ho Hne). cbv zeta.
  set (s := (fetch_resume (req_resource q) (req_username q)
               (resp (req_resource q)) (store w)).1) in *.
  rewrite commit_same_ref;
    [|simpl; destruct (composite_pending _); simpl; congruence].
  assert (forall r, r ∈ secondary ->
            r ∈ map req_resource (delete i (inflight w)) \/
            Flags.get r (loadingStates s) = false) as Hflags.
  { intros r Hr. rewrite F1, Flags_get_set. case_decide as Hrq; [by right|].
    destruct (S5 r Hr) as [Hp|Hdown]; [left|by right].
    apply (elem_of_map_delete _ _ _ q); [done|congruence|done]. }
  assert (Flags.get Profile (loadingStates s) = false) as Hprofile.
  { rewrite F1, Flags_get_set. by case_decide. }
  destruct (composite_pending (delete i (inflight w))) eqn:Hmore.
  - constructor; unfold pending; simpl; try congruence; try done.
    left. intros Hnil. by rewrite Hnil in Hmore.
  - constructor; unfold pending; simpl; try congruence; try done.
    by right.
Qed.

Lemma settling_settles u s0 calls storage profile resp order : forall w,
  fanned_out profile resp w ->
  settling u s0 calls storage w ->
  settling u s0 calls storage (foldl (settle_with resp) w order).
Proof.
  induction order as [|i order IH]; intros w Hf Hs; [done|].
  simpl. apply IH; [by apply fanned_out_settle | by eapply settling_settle].
Qed.

Lemma settling_established w u profile :
  u <> "" ->
  isLoadingRef (store w) = false ->
  inflight w = [] ->
  truthy profile = true ->
  settling u (store w) (issued w ++ load_endpoints u)
    (saveRecentSearches (addRecentSearch u (recentSearches (store w)))
       (localStorage w))
    (run w [LoadUserData u; Settle 0 (Normal profile)]).
Proof.
  intros Hne Hguard Hidle Ht. simpl.
  set (q := mkRequest Profile u (Api.getUserProfile u) Composite).
  destruct (loadUserData_start_entered u (store w) Hne Hguard)
    as (S1 & S2 & S3 & S4 & S5 & S6 & S7 & S8).
  assert (step w (LoadUserData u)
          = mkWorld (loadUserData_start u (store w)).1 [q]
              (issued w ++ [Api.getUserProfile u])
              (saveRecentSearches (addRecentSearch u (recentSearches (store w)))
                 (localStorage w))) as E1.
  { unfold step. rewrite handle_loadUserData_entered by done.
    unfold commit. simpl. rewrite bool_decide_eq_false_2 by lia.
    simpl. by rewrite Hidle, S3. }
  rewrite E1. set (w1 := mkWorld _ _ _ _).
  unfold step. rewrite (handle_settle_profile w1 0 q (Normal profile));
    [|done|done|done].
  cbv zeta. simpl req_username.
  assert (fetchUserProfile_resume u (Normal profile) (store w1)
          = (updateLoadingState Profile false (setUserData profile (store w1)),
             profile)) as Hdone
    by (unfold fetchUserProfile_resume; by rewrite Ht).
  rewrite Hdone. simpl fst. simpl snd.
  unfold loadUserData_fan_out. rewrite Ht. simpl.
  rewrite commit_same_ref by done.
  constructor; unfold pending; simpl; try done.
  - intros r Hr. by left.
  - by left.
  - unfold load_endpoints. by rewrite <- app_assoc.
Qed.

(** X4.  A load from an idle provider that finds the profile: once all six
    other requests have settled, in whatever order and whatever each
    yielded, the provider is in one state that the order does not change:
    the new username, the profile, each slot holding its outcome, no
    error, all flags, the aggregate and the guard down, the searched name
    pushed on the recent searches.  The calls made are the seven endpoints
    in source order, and the storage holds the new list. *)
Theorem load_found_ends_in_one_state
    (w : World) (u : string) (profile : value)
    (resp : resource -> completion value) (order : list nat) :
  u <> "" ->
  isLoadingRef (store w) = false ->
  inflight w = [] ->
  truthy profile = true ->
  let w1 := run w [LoadUserData u; Settle 0 (Normal profile)] in
  let w2 := foldl (settle_with resp) w1 order in
  inflight w2 = [] ->
  w2 = mkWorld (loaded_state u profile resp (store w)) []
         (issued w ++ load_endpoints u)
         (saveRecentSearches (addRecentSearch u (recentSearches (store w)))
            (localStorage w)).
Proof.
  intros Hne Hguard Hidle Ht w1 w2 Hdone.
  assert (fanned_out profile resp w1) as Hf1
    by (by apply fanned_out_established).
  assert (fanned_out profile resp w2) as [F1 F2 F3 F4]
    by (by apply fanned_out_settles).
  assert (settling u (store w) (issued w ++ load_endpoints u)
            (saveRecentSearches (addRecentSearch u (recentSearches (store w)))
               (localStorage w)) w2) as [S1 S2 S3 S4 S5 S6 S7 S8].
  { eapply settling_settles; [done|]. by apply settling_established. }
  assert (forall r, r ∈ secondary ->
            slot r (store w2) = outcome_slot r (resp r) /\
            Flags.get r (loadingStates (store w2)) = false) as Hr.
  { intros r Hin. unfold pending in F3, S5. rewrite Hdone in F3, S5.
    destruct (F3 r Hin) as [Hp|Hs]; [by apply elem_of_nil in Hp|].
    destruct (S5 r Hin) as [Hp|Hd]; [by apply elem_of_nil in Hp|done]. }
  destruct S6 as [Hbusy|[Hagg Hg]]; [done|].
  destruct (Hr Repositories) as [R1 R2]; [by apply (bool_decide_unpack _)|].
  destruct (Hr Languages) as [L1 L2]; [by apply (bool_decide_unpack _)|].
  destruct (Hr Activity) as [A1 A2]; [by apply (bool_decide_unpack _)|].
  destruct (Hr Insights) as [I1 I2]; [by apply (bool_decide_unpack _)|].
  destruct (Hr Trends) as [T1 T2]; [by apply (bool_decide_unpack _)|].
  destruct (Hr Contributions) as [C1 C2]; [by apply (bool_decide_unpack _)|].
  destruct w2 as [s reqs calls storage]. simpl in *.
  destruct s as [? ? ? ? ? ? ? ? ? flags ? ? ? ?]. destruct flags.
  unfold loaded_state, Flags.initial. simpl in *. by subst.
Qed.

Lemma load_found_ends_in_one_state_witness :
  let profile := Obj [("login", Str "octocat")] in
  let resp := fun r =>
    match r with
    | Languages => Throw (mkError None)
    | Repositories => Normal (Arr [Obj [("name", Str "hello-world")]])
    | Trends => Normal Null
    | _ => Normal (Obj [("total", Num 3)])
    end in
  let w1 := run fresh [LoadUserData "octocat"; Settle 0 (Normal profile)] in
  foldl (settle_with resp) w1 [5; 0; 3; 0; 1; 0]
  = foldl (settle_with resp) w1 [0; 0; 0; 0; 0; 0].
Proof.
  intros profile resp w1. subst w1.
  etrans; [|symmetry].
  - apply (load_found_ends_in_one_state fresh "octocat" profile resp
             [5; 0; 3; 0; 1; 0]);
      [discriminate|reflexivity|reflexivity|reflexivity|by vm_compute].
  - apply (load_found_ends_in_one_state fresh "octocat" profile resp
             [0; 0; 0; 0; 0; 0]);
      [discriminate|reflexivity|reflexivity|reflexivity|by vm_compute].
Defined.


(** ** The error slot *)

Lemma fetch_start_frame r u days s :
  let s' := (fetch_start r u days s).1 in
  error s' = error s /\ username s' = username s /\
  recentSearches s' = recentSearches s /\
  recentSearchesRef s' = recentSearchesRef s /\
  (forall k, slot k s' = slot k s).
Proof. destruct r; repeat split; by intros []. Qed.

Lemma fetch_resume_keeps_error r u out s :
  error s <> None -> error (fetch_resume r u out s).1 <> None.
Proof.
  intros He. destruct r, out as [data|e]; autounfold with ops;
    try destruct (truthy data); done.
Qed.

Lemma loadUserData_fan_out_keeps_error u profile s :
  error s <> None -> error (loadUserData_fan_out u profile s).1 <> None.
Proof. intros He. unfold loadUserData_fan_out. by destruct (truthy profile). Qed.

(** X5.  Once the error slot holds a message, only [clearUserData] or a
    [loadUserData] that gets past its two tests empties it: no fetch
    operation, however it ends, and no rejected load does. *)
Theorem error_outlives_fetches (w : World) (e : event) :
  error (store w) <> None ->
  e <> ClearUserData ->
  (forall u, e = LoadUserData u -> u = "" \/ isLoadingRef (store w) = true) ->
  error (store (step w e)) <> None.
Proof.
  intros He Hclear Hload. unfold step. rewrite commit_store.
  destruct e as [u|r u days| |u|i out]; try done.
  - rewrite handle_loadUserData_rejected by auto. simpl.
    by destruct (String.eqb u "").
  - simpl. destruct (fetch_start_frame r u days (store w)) as (E & _).
    destruct (fetch_start r u days (store w)) as [s ep]. simpl in *. congruence.
  - destruct (inflight w !! i) as [q|] eqn:Hq;
      [|by rewrite handle_settle_none].
    pose proof (fetch_resume_keeps_error (req_resource q) (req_username q) out
                  (store w) He) as Hkept.
    destruct (req_owner q) eqn:Ho;
      [by rewrite (handle_settle_standalone w i q out Hq Ho)|].
    destruct (decide (req_resource q = Profile)) as [Hr|Hr].
    + rewrite (handle_settle_profile w i q out Hq Ho Hr). cbv zeta. simpl.
      apply loadUserData_fan_out_keeps_error. by rewrite Hr in Hkept.
    + rewrite (handle_settle_secondary w i q out Hq Ho Hr). cbv zeta. simpl.
      by destruct (composite_pending _).
Qed.

(** After a load that did not find the user, a retry of the repositories
    alone succeeds and the message is still there. *)
Lemma error_outlives_fetches_witness :
  let w := run fresh [LoadUserData "ghost"; Settle 0 (Normal Null);
                      Fetch Repositories "ghost" None] in
  error (store (step w (Settle 0 (Normal (Arr [Str "hello-world"])))))
  <> None.
Proof.
  intros w.
  apply (error_outlives_fetches w (Settle 0 (Normal (Arr [Str "hello-world"]))));
    [discriminate | discriminate | discriminate].
Defined.


(** ** A view refreshes one resource *)

(** X6.  A view calls one of the six secondary fetches, for any username,
    and the call settles, with data or without.  The slot of that key then
    holds the outcome, also when the username asked for is not the current
    one, and its flag is down; the other six slots, the error slot, the
    username, the guard, the other flags, the recent searches, the
    requests in flight and the storage are as before. *)
Theorem refresh_writes_its_slot_only
    (w : World) (r : resource) (u : string) (days : option N)
    (out : completion value) :
  r ∈ secondary ->
  let w2 := step (step w (Fetch r u days)) (Settle (length (inflight w)) out) in
  slot r (store w2) = outcome_slot r out /\
  (forall k, k <> r -> slot k (store w2) = slot k (store w)) /\
  error (store w2) = error (store w) /\
  username (store w2) = username (store w) /\
  isLoadingRef (store w2) = isLoadingRef (store w) /\
  loadingStates (store w2) = Flags.set r false (loadingStates (store w)) /\
  isLoading (store w2) = Flags.some (loadingStates (store w2)) /\
  recentSearches (store w2) = recentSearches (store w) /\
  inflight w2 = inflight w /\
  localStorage w2 = localStorage w.
Proof.
  intros Hr w2.
  assert (r <> Profile) as Hne
    by (intros ->; by apply Profile_not_secondary in Hr).
  destruct (fetch_start_frame r u days (store w)) as (A1 & A2 & A3 & A4 & A5).
  destruct (fetch_start_flags r u days (store w)) as (B1 & B2 & B3).
  assert (step w (Fetch r u days)
          = mkWorld (fetch_start r u days (store w)).1
              (inflight w ++ [mkRequest r u (fetch_start r u days (store w)).2
                                Standalone])
              (issued w ++ [(fetch_start r u days (store w)).2])
              (localStorage w)) as E1.
  { unfold step. simpl. destruct (fetch_start r u days (store w)) as [s ep].
    simpl in *. by rewrite commit_same_ref. }
  set (s1 := (fetch_start r u days (store w)).1) in *.
  set (q := mkRequest r u (fetch_start r u days (store w)).2 Standalone) in *.
  destruct (fetch_resume_secondary r u out s1 Hne)
    as (C1 & _ & C3 & C4 & C5 & C6 & C7).
  destruct (fetch_resume_flags r u out s1) as (D1 & D2 & D3).
  assert (w2 = mkWorld (fetch_resume r u out s1).1 (inflight w)
                 (issued w ++ [req_endpoint q]) (localStorage w)) as E2.
  { subst w2. rewrite E1. unfold step.
    rewrite (handle_settle_standalone _ (length (inflight w)) q out);
      [|apply lookup_last|done].
    simpl. rewrite delete_last. by rewrite commit_same_ref. }
  rewrite E2. simpl. repeat split; try congruence.
  - intros k Hk. rewrite C3 by done. apply A5.
  - rewrite D1, B1. by destruct r, (loadingStates (store w)).
Qed.

Lemma refresh_writes_its_slot_only_witness :
  let loaded := run fresh [LoadUserData "octocat"; Settle 0 (Normal Null)] in
  let w2 := run loaded [Fetch Languages "torvalds" None;
                        Settle 0 (Normal (Obj [("C", Num 100)]))] in
  slot Languages (store w2) = Obj [("C", Num 100)] /\
  username (store w2) = "octocat".
Proof.
  intros loaded.
  destruct (refresh_writes_its_slot_only loaded Languages "torvalds" None
              (Normal (Obj [("C", Num 100)])))
    as (H1 & _ & _ & H4 & _); [by apply (bool_decide_unpack _)|].
  split; [exact H1 | exact H4].
Defined.


(** ** The history along a run *)

Lemma addRecentSearch_tidy u prev :
  u <> "" -> tidy_history prev -> tidy_history (addRecentSearch u prev).
Proof.
  intros Hne (Hnd & Hlen & Hempty). rewrite addRecentSearch_cons.
  assert (take 4 (filter (fun name => name <> u) prev) `sublist_of` prev) as Hsub
    by (etrans; [apply sublist_take | apply sublist_filter]).
  split; [|split].
  - apply NoDup_cons. split; [|by eapply sublist_NoDup].
    intros Hin. apply elem_of_take in Hin as (i & Hin & _).
    apply list_elem_of_lookup_2, list_elem_of_filter in Hin as [Hin _]. done.
  - simpl. rewrite length_take. lia.
  - intros [Hu|Hin]%elem_of_cons; [done|].
    apply Hempty. by eapply elem_of_sublist.
Qed.

(** X7.  When the history read at mount has no name twice, at most five
    names and no empty name, so has the history at every observable point
    of every run. *)
Theorem history_stays_tidy
    (saved : list string) (storage : gmap string string) (events : list event) :
  tidy_history saved ->
  tidy_history (recentSearches (store (run (mounted saved storage) events))).
Proof.
  intros Hsaved.
  assert (forall w, tidy_history (recentSearches (store w)) ->
                    tidy_history (recentSearches (store (run w events)))) as Hrun.
  { induction events as [|e events IH]; intros w Hw; [done|].
    simpl. apply IH. unfold step. rewrite commit_store.
    destruct (handle_recentSearches w e) as [[-> _]|(u & -> & Hne & Hguard)];
      [done|].
    rewrite handle_loadUserData_entered by done. simpl.
    destruct (loadUserData_start_entered u (store w) Hne Hguard)
      as (_ & _ & -> & _).
    by apply addRecentSearch_tidy. }
  by apply Hrun.
Qed.

Lemma history_stays_tidy_witness :
  tidy_history
    (recentSearches
       (store (run (mounted ["e"; "d"; "c"; "b"; "a"] ∅)
                 [LoadUserData "c"; Settle 0 (Normal Null); LoadUserData "f"]))).
Proof.
  apply (history_stays_tidy ["e"; "d"; "c"; "b"; "a"] ∅).
  repeat split; [by apply (bool_decide_unpack _) | simpl; lia |
                 by apply (bool_decide_unpack _)].
Defined.

Lemma handle_localStorage w e : localStorage (handle e w) = localStorage w.
Proof.
  destruct e as [u|r u days| |u|i out]; simpl; try done.
  - by destruct (loadUserData_start u (store w)) as [s [ep|]].
  - by destruct (fetch_start r u days (store w)).
  - destruct (inflight w !! i) as [q|]; [|done].
    destruct (fetch_resume _ _ _ _) as [s result].
    destruct (req_owner q); [done|].
    destruct (req_resource q); try by destruct (composite_pending _).
    by destruct (loadUserData_fan_out _ _ _).
Qed.

(** X8.  At every observable point of every run, a non-empty history is
    the one in storage: the key holds its serialisation. *)
Theorem storage_mirrors_history
    (saved : list string) (storage : gmap string string) (events : list event) :
  let w := run (mounted saved storage) events in
  recentSearches (store w) <> [] ->
  localStorage w !! storage_key = Some (JSON_stringify (recentSearches (store w))).
Proof.
  assert (forall names (st : gmap string string),
            names <> [] ->
            saveRecentSearches names st !! storage_key
            = Some (JSON_stringify names)) as Hsave.
  { intros names st Hne. unfold saveRecentSearches.
    destruct names; [done|]. simpl. apply lookup_insert_eq. }
  assert (forall w,
            (recentSearches (store w) <> [] ->
             localStorage w !! storage_key
             = Some (JSON_stringify (recentSearches (store w)))) ->
            recentSearches (store (run w events)) <> [] ->
            localStorage (run w events) !! storage_key
            = Some (JSON_stringify (recentSearches (store (run w events)))))
    as Hrun.
  { induction events as [|e events IH]; intros w Hw; [done|].
    simpl. apply IH. unfold step. rewrite commit_store.
    destruct (handle_recentSearches w e) as [[Hsame Href]|(u & -> & Hne & Hguard)].
    - rewrite commit_same_ref by done. by rewrite Hsame, handle_localStorage.
    - intros Hnonempty. unfold commit.
      rewrite handle_loadUserData_entered in * by done. simpl in *.
      destruct (loadUserData_start_entered u (store w) Hne Hguard)
        as (_ & _ & _ & Href & _).
      rewrite bool_decide_eq_false_2 by lia. simpl. by apply Hsave. }
  intros w. apply Hrun. simpl. apply Hsave.
Qed.

Lemma storage_mirrors_history_witness :
  let w := run fresh [LoadUserData "octocat"; Settle 0 (Normal Null);
                      LoadUserData "torvalds"] in
  localStorage w !! storage_key = Some (JSON_stringify ["torvalds"; "octocat"]).
Proof.
  apply (storage_mirrors_history [] ∅
           [LoadUserData "octocat"; Settle 0 (Normal Null);
            LoadUserData "torvalds"]).
  discriminate.
Defined.

Lemma usernames_of_names names : usernames_of (Arr (map Str names)) = Some names.
Proof.
  simpl. induction names as [|name names IH]; [done|].
  simpl. by rewrite IH.
Qed.

Section Reload.

Variable JSON_parse : string -> completion value.

(** X9.  The provider is mounted again over the storage a run has left,
    with a history that is not empty.  If the host's parser reads the
    stored text back as the array of these names, the new provider starts
    with the same history. *)
Theorem reload_restores_history
    (saved : list string) (storage : gmap string string) (events : list event) :
  let w := run (mounted saved storage) events in
  let names := recentSearches (store w) in
  names <> [] ->
  JSON_parse (JSON_stringify names) = Normal (Arr (map Str names)) ->
  mount JSON_parse (localStorage w) = Some (mounted names (localStorage w)) /\
  option_map (fun w' => recentSearches (store w'))
    (mount JSON_parse (localStorage w)) = Some names.
Proof.
  intros w names Hne Hparse.
  assert (mount JSON_parse (localStorage w) = Some (mounted names (localStorage w)))
    as Hmount.
  { assert (localStorage w !! storage_key = Some (JSON_stringify names)) as Hst
      by exact (storage_mirrors_history saved storage events Hne).
    assert (String.eqb (JSON_stringify names) "" = false) as Htext
      by reflexivity.
    unfold mount, initRecentSearches.
    rewrite Hst, Htext, Hparse. simpl negb. cbv iota.
    by rewrite usernames_of_names. }
  split; [done|]. by rewrite Hmount.
Qed.

End Reload.

Lemma reload_restores_history_witness :
  let w := run fresh [LoadUserData "octocat"; Settle 0 (Normal Null);
                      LoadUserData "torvalds"] in
  option_map (fun w' => recentSearches (store w'))
    (mount parse_plain_names (localStorage w)) = Some ["torvalds"; "octocat"].
Proof.
  intros w.
  apply (reload_restores_history parse_plain_names [] ∅
           [LoadUserData "octocat"; Settle 0 (Normal Null);
            LoadUserData "torvalds"]);
    [discriminate | by vm_compute].
Defined.


(** ** The client, seen from its callers *)

Lemma fetchApi_trace endpoint net :
  match delivered (net (Api.API_BASE_URL +:+ endpoint)) with
  | Some v => Api.fetchApi endpoint net = ([request_line endpoint], Normal v)
  | None =>
      exists what,
        Api.fetchApi endpoint net
        = ([request_line endpoint;
            Api.console_error
              [Api.AVal (Str ("API Error: " +:+ endpoint)); what]],
           Normal Null)
  end.
Proof.
  unfold Api.fetchApi, delivered, request_line.
  destruct (net (Api.API_BASE_URL +:+ endpoint)) as [r|e]; simpl; [|eauto].
  destruct (Api.ok r); simpl.
  - destruct (Api.json r) as [v|e]; simpl; eauto.
  - destruct (Api.json r) as [[]|e]; simpl; eauto.
Qed.

Lemma fetchApi_normal endpoint net :
  exists v, (Api.fetchApi endpoint net).2 = Normal v.
Proof.
  pose proof (fetchApi_trace endpoint net) as H.
  destruct (delivered _); [|destruct H as [what H]]; rewrite H; eauto.
Qed.

(** X10.  [fetchApi] logs the request first, always.  When the response
    is 2xx and its body parses, that one line is all it logs and the body
    is what it returns.  In every other case it logs exactly one more
    line, an error line that starts with "API Error: " and the endpoint,
    and returns [null]: no failure is silent and none is logged twice. *)
Theorem fetchApi_logs_each_failure_once
    (endpoint : string) (net : string -> Api.FetchOutcome) :
  let run := Api.fetchApi endpoint net in
  head run.1 = Some (request_line endpoint) /\
  (forall v, delivered (net (Api.API_BASE_URL +:+ endpoint)) = Some v ->
     run = ([request_line endpoint], Normal v)) /\
  (delivered (net (Api.API_BASE_URL +:+ endpoint)) = None ->
     exists what,
       run = ([request_line endpoint;
               Api.console_error
                 [Api.AVal (Str ("API Error: " +:+ endpoint)); what]],
              Normal Null)).
Proof.
  intros run. subst run. pose proof (fetchApi_trace endpoint net) as H.
  destruct (delivered _) as [v|].
  - rewrite H. split; [done|]. split; [by intros ? [= ->]|done].
  - destruct H as [what H]. rewrite H. split; [done|]. split; [done|eauto].
Qed.

(** A 200 whose body is cut short. *)
Lemma fetchApi_logs_each_failure_once_witness :
  let net := fun _ : string =>
    Normal (Api.mkResponse 200 (Throw (mkError (Some "Unexpected end of JSON input")))) in
  exists what,
    Api.fetchApi "/users/octocat/languages" net
    = ([request_line "/users/octocat/languages";
        Api.console_error
          [Api.AVal (Str "API Error: /users/octocat/languages"); what]],
       Normal Null).
Proof.
  intros net.
  destruct (fetchApi_logs_each_failure_once "/users/octocat/languages" net)
    as (_ & _ & Hfail).
  apply Hfail. reflexivity.
Defined.

Lemma step_expected_error w e :
  (forall i err, e <> Settle i (Throw err)) ->
  expected_error (error (store w)) ->
  expected_error (error (store (step w e))).
Proof.
  intros Hnormal He. unfold step. rewrite commit_store.
  destruct e as [u|r u days| |u|i out].
  - destruct (decide (u = "")) as [->|Hne]; [constructor|].
    destruct (isLoadingRef (store w)) eqn:Hguard.
    + rewrite handle_loadUserData_rejected by auto. simpl.
      destruct (String.eqb u ""); [constructor|done].
    + rewrite handle_loadUserData_entered by done. simpl.
      destruct (loadUserData_start_entered u (store w) Hne Hguard) as (-> & _).
      constructor.
  - simpl. destruct (fetch_start_frame r u days (store w)) as (E & _).
    destruct (fetch_start r u days (store w)) as [s ep]. simpl in *.
    by rewrite E.
  - constructor.
  - done.
  - destruct out as [data|err]; [|by destruct (Hnormal i err)].
    destruct (inflight w !! i) as [q|] eqn:Hq;
      [|by rewrite handle_settle_none].
    assert (expected_error
              (error (fetch_resume (req_resource q) (req_username q)
                        (Normal data) (store w)).1)) as Hkept.
    { destruct (req_resource q); autounfold with ops;
        destruct (truthy data); simpl; done || constructor. }
    destruct (req_owner q) eqn:Ho;
      [by rewrite (handle_settle_standalone w i q _ Hq Ho)|].
    destruct (decide (req_resource q = Profile)) as [Hr|Hr].
    + rewrite (handle_settle_profile w i q _ Hq Ho Hr). cbv zeta. simpl.
      rewrite Hr in Hkept. unfold loadUserData_fan_out.
      destruct (truthy _); simpl; [done|constructor].
    + rewrite (handle_settle_secondary w i q _ Hq Ho Hr). cbv zeta. simpl.
      by destruct (composite_pending _).
Qed.

(** X11.  With the client of this repository between the provider and the
    network, whatever the views do and whatever the network answers, the
    error slot is unset or holds one of three messages: "Username is
    required", "User <name> not found", or "User <name> not found or API
    error occurred".  The message of the [catch] blocks, "Failed to load
    user profile: ...", is never shown. *)
Theorem error_messages_behind_client
    (saved : list string) (storage : gmap string string) (actions : list action) :
  let shown := error (store (drive (mounted saved storage) actions)) in
  expected_error shown /\
  forall reason, shown <> Some ("Failed to load user profile: " +:+ reason).
Proof.
  intros shown.
  assert (expected_error shown) as Hshown.
  { subst shown.
    assert (forall w, expected_error (error (store w)) ->
                      expected_error (error (store (drive w actions)))) as Hdrive.
    { induction actions as [|a actions IH]; intros w Hw; [done|].
      simpl. apply IH. unfold act. apply step_expected_error; [|done].
      intros i err. destruct a as [u|r u days| |u|j net]; simpl; try done.
      destruct (inflight w !! j) as [q|]; [|done].
      destruct (fetchApi_normal (req_endpoint q) net) as [v ->]. done. }
    apply Hdrive. constructor. }
  split; [done|]. intros reason. by destruct Hshown.
Qed.

(** X12.  The [LanguageTrends] component fetches through the same client.
    Whatever the network does, its fetch ends with the loading flag down
    and no error message: a failure shows as [trends = null], the empty
    state, and the "Failed to load language trends" message cannot
    appear. *)
Theorem language_trends_never_shows_error
    (net : string -> Api.FetchOutcome) (username : string)
    (c : LanguageTrends.Cells) :
  let c' := LanguageTrends.fetchLanguageTrends net username c in
  LanguageTrends.loading c' = false /\
  LanguageTrends.error c' = None /\
  LanguageTrends.trends c'
  = match delivered (net (Api.API_BASE_URL +:+ Api.getLanguageTrends username)) with
    | Some body => body
    | None => Null
    end.
Proof.
  intros c'. subst c'. unfold LanguageTrends.fetchLanguageTrends. simpl.
  pose proof (fetchApi_trace (Api.getLanguageTrends username) net) as H.
  destruct (delivered _) as [v|]; [|destruct H as [what H]]; by rewrite H.
Qed.


(** ** The aggregate catches up *)




(** ** Streaks and weeks: [dateUtils.js] *)

Section Streaks.
Import DateUtils.

Variable contributions : list (string * float).

Lemma current_loop_shift dates k :
  current_loop contributions dates k = k + current_loop contributions dates 0.
Proof.
  revert k. induction dates as [|d dates IH]; intros k; simpl; [lia|].
  destruct (positive contributions d); [|lia].
  rewrite (IH (S k)), (IH 1). lia.
Qed.

Lemma streak_at_end_snoc dates d k :
  streak_at_end contributions (dates ++ [d]) k
  = if positive contributions d
    then S (streak_at_end contributions dates k) else 0.
Proof.
  revert k. induction dates as [|d' dates IH]; intros k; simpl;
    [by destruct (positive contributions d)|].
  by destruct (positive contributions d').
Qed.

Lemma current_loop_rev dates :
  current_loop contributions (rev dates) 0 = streak_at_end contributions dates 0.
Proof.
  induction dates as [|d dates IH] using rev_ind; [done|].
  rewrite rev_app_distr, streak_at_end_snoc. simpl.
  destruct (positive contributions d); [|done].
  rewrite current_loop_shift, IH. lia.
Qed.

Lemma longest_loop_bounds dates : forall cur lon,
  cur <= lon ->
  lon <= longest_loop contributions dates cur lon /\
  streak_at_end contributions dates cur
    <= longest_loop contributions dates cur lon /\
  longest_loop contributions dates cur lon <= Nat.max lon (cur + length dates).
Proof.
  induction dates as [|d dates IH]; intros cur lon Hle; simpl; [lia|].
  destruct (positive contributions d).
  - destruct (IH (S cur) (Nat.max lon (S cur))) as (H1 & H2 & H3); lia.
  - destruct (IH 0 lon) as (H1 & H2 & H3); lia.
Qed.

Lemma longest_loop_zero dates : forall cur lon,
  cur <= lon ->
  longest_loop contributions dates cur lon = 0
  <-> lon = 0 /\ Forall (fun d => positive contributions d = false) dates.
Proof.
  induction dates as [|d dates IH]; intros cur lon Hle; simpl.
  - split; [by intros ->|by intros [-> _]].
  - destruct (positive contributions d) eqn:Hd.
    + split.
      * intros H0. destruct (longest_loop_bounds dates (S cur)
                               (Nat.max lon (S cur))) as (H1 & _); lia.
      * intros [_ Hall]. apply Forall_cons in Hall as [Hd' _]. congruence.
    + rewrite IH by lia. split.
      * intros [-> Hall]. split; [done|]. by constructor.
      * intros [-> Hall]. by apply Forall_cons in Hall as [_ Hall].
Qed.

(** X14.  Whatever order the host's sort gives the dates, the current
    streak never exceeds the longest streak.  When the sort returns the
    dates it was given, rearranged, the longest streak is at most the
    number of dates, and it is zero exactly when no date has a count above
    zero. *)
Theorem current_streak_le_longest (sort : list string -> list string) :
  calculateCurrentStreak sort contributions
    <= calculateLongestStreak sort contributions /\
  (sort (map fst contributions) ≡ₚ map fst contributions ->
   calculateLongestStreak sort contributions <= length contributions /\
   (calculateLongestStreak sort contributions = 0 <->
    forall date, date ∈ map fst contributions ->
                 positive contributions date = false)).
Proof.
  unfold calculateCurrentStreak, calculateLongestStreak.
  set (sortedDates := sort (map fst contributions)).
  destruct (longest_loop_bounds sortedDates 0 0) as (_ & H2 & H3); [lia|].
  split; [by rewrite current_loop_rev|].
  intros Hperm. split.
  - rewrite (Permutation_length Hperm), length_map in H3. lia.
  - rewrite longest_loop_zero by lia. rewrite Hperm, Forall_forall.
    split; [by intros [_ H]|by intros H].
Qed.

End Streaks.

Lemma current_streak_le_longest_witness :
  let contributions := [("2024-01-03", 2%float); ("2024-01-01", 1%float);
                        ("2024-01-02", 0%float); ("2024-01-04", 5%float)] in
  DateUtils.calculateLongestStreak sort_by_bytes contributions <= 4 /\
  DateUtils.calculateCurrentStreak sort_by_bytes contributions
    <= DateUtils.calculateLongestStreak sort_by_bytes contributions.
Proof.
  intros contributions.
  destruct (current_streak_le_longest contributions sort_by_bytes) as [Hle Hperm].
  destruct Hperm as [Hlen _]; [apply merge_sort_Permutation|].
  split; [exact Hlen | exact Hle].
Defined.

Example streaks_of_four_days :
  let contributions := [("2024-01-03", 2%float); ("2024-01-01", 1%float);
                        ("2024-01-02", 0%float); ("2024-01-04", 5%float)] in
  DateUtils.calculateCurrentStreak sort_by_bytes contributions = 2 /\
  DateUtils.calculateLongestStreak sort_by_bytes contributions = 2.
Proof. by vm_compute. Qed.

Section Weeks.
Import DateUtils.

Variable getDay : string -> float.
Variable contributions : list (string * float).

Lemma group_loop_keeps dates : forall weeks currentWeek,
  Forall (well_cut getDay) weeks ->
  length currentWeek < 7 ->
  Forall (fun d => on_sunday getDay d = false) (tail currentWeek) ->
  let done := group_loop getDay contributions dates weeks currentWeek in
  concat done.1 ++ done.2 = concat weeks ++ currentWeek ++ map (entry contributions) dates /\
  Forall (well_cut getDay) done.1 /\
  length done.2 < 7 /\
  Forall (fun d => on_sunday getDay d = false) (tail done.2).
Proof.
  induction dates as [|date dates IH]; intros weeks cur Hweeks Hlen Htail.
  { simpl. by rewrite app_nil_r. }
  cbn [group_loop]. cbv zeta.
  (* the week is closed before a Sunday *)
  set (closed := PrimFloat.eqb (getDay date) 0 && (0 <? length cur)%nat).
  assert (exists weeks1 cur1,
            (if closed then (weeks ++ [cur], []) else (weeks, cur))
            = (weeks1, cur1) /\
            concat weeks1 ++ cur1 = concat weeks ++ cur /\
            Forall (well_cut getDay) weeks1 /\
            length cur1 < 7 /\
            Forall (fun d => on_sunday getDay d = false)
              (tail (cur1 ++ [entry contributions date]))) as (weeks1 & cur1 & -> & E1 & W1 & L1 & T1).
  { subst closed. destruct (PrimFloat.eqb (getDay date) 0) eqn:Hsun; simpl.
    - destruct cur as [|d0 cur']; simpl.
      + exists weeks, []. simpl. repeat split; done || lia.
      + exists (weeks ++ [d0 :: cur']), []. simpl.
        rewrite concat_app. simpl. rewrite !app_nil_r.
        split; [done|]. split; [done|]. split; [|split; [lia|done]].
        apply Forall_app. split; [done|]. constructor; [|done].
        split; [simpl in *; lia|done].
    - exists weeks, cur. split; [done|]. split; [done|].
      split; [done|]. split; [done|].
      destruct cur as [|d0 cur']; simpl; [done|].
      apply Forall_app. split; [done|]. constructor; [|done].
      unfold on_sunday. simpl. exact Hsun. }
  (* and after its seventh day *)
  destruct (length (cur1 ++ [entry contributions date]) =? 7)%nat eqn:Hfull.
  - apply Nat.eqb_eq in Hfull.
    destruct (IH (weeks1 ++ [cur1 ++ [entry contributions date]]) []) as (H1 & H2 & H3 & H4);
      [|simpl; lia|done|].
    { apply Forall_app. split; [done|]. constructor; [|done].
      split; [lia|done]. }
    split; [|done]. rewrite H1, concat_app. simpl.
    rewrite (app_assoc (concat weeks) cur), <- E1, !app_nil_r, <- !app_assoc.
    done.
  - apply Nat.eqb_neq in Hfull. rewrite length_app in Hfull. simpl in Hfull.
    destruct (IH weeks1 (cur1 ++ [entry contributions date])) as (H1 & H2 & H3 & H4);
      [done|rewrite length_app; simpl; lia|done|].
    split; [|done]. rewrite H1. simpl.
    rewrite (app_assoc (concat weeks) cur), <- E1, <- !app_assoc. done.
Qed.

(** X15.  [groupDatesByWeek] keeps every date, once, in the order the sort
    gave: the weeks laid end to end are the sorted dates, each with its
    count or zero.  Every week has between one and seven days, and a
    Sunday is never anywhere but first in its week. *)
Theorem groupDatesByWeek_cuts_the_sorted_dates (sort : list string -> list string) :
  let weeks := groupDatesByWeek sort getDay contributions in
  concat weeks = map (entry contributions) (sort (map fst contributions)) /\
  Forall (well_cut getDay) weeks.
Proof.
  unfold groupDatesByWeek.
  destruct (group_loop_keeps (sort (map fst contributions)) [] [])
    as (H1 & H2 & H3 & H4); [done|simpl; lia|done|].
  destruct (group_loop getDay contributions (sort (map fst contributions)) [] [])
    as [weeks cur]. simpl in *.
  destruct cur as [|d cur]; simpl.
  - by rewrite app_nil_r in H1.
  - rewrite concat_app. simpl. rewrite app_nil_r. split; [done|].
    apply Forall_app. split; [done|]. constructor; [|done].
    split; [simpl in *; lia|done].
Qed.

End Weeks.

Example weeks_of_ten_days :
  let contributions :=
    map (fun date => (date, 1%float))
      ["2024-01-04"; "2024-01-05"; "2024-01-06"; "2024-01-07"; "2024-01-08";
       "2024-01-09"; "2024-01-10"; "2024-01-11"; "2024-01-12"; "2024-01-13"] in
  map (map DateUtils.date)
    (DateUtils.groupDatesByWeek sort_by_bytes january_2024_day contributions)
  = [["2024-01-04"; "2024-01-05"; "2024-01-06"];
     ["2024-01-07"; "2024-01-08"; "2024-01-09"; "2024-01-10"; "2024-01-11";
      "2024-01-12"; "2024-01-13"]].
Proof. by vm_compute. Qed.


(** ** Searching a name again *)

Lemma move_to_front (u : string) (names : list string) :
  NoDup names -> u ∈ names ->
  u :: filter (fun name => name <> u) names ≡ₚ names.
Proof.
  induction names as [|x names IH]; intros Hnd Hin;
    [by apply elem_of_nil in Hin|].
  apply NoDup_cons in Hnd as [Hx Hnd].
  destruct (decide (x = u)) as [->|Hne].
  - rewrite filter_cons_False by (intros H; by apply H).
    by rewrite filter_ne_absent.
  - apply elem_of_cons in Hin as [->|Hin]; [done|].
    rewrite filter_cons_True by done.
    rewrite perm_swap. by rewrite IH.
Qed.

Lemma filter_ne_length (u : string) (names : list string) :
  NoDup names -> u ∈ names ->
  S (length (filter (fun name => name <> u) names)) = length names.
Proof.
  intros Hnd Hin. by rewrite <- (Permutation_length (move_to_front u names Hnd Hin)).
Qed.

(** X16.  A search loses no name of a tidy history unless the name is new
    and the list is full.  Searching a name that is already there, as a
    click on a recent search does, only reorders the history: the new list
    is a rearrangement of the old one with that name first.  Searching a
    new name on a list of fewer than five puts it in front of the old
    list, which stays whole. *)
Theorem search_again_only_reorders (w : World) (u : string) :
  u <> "" ->
  isLoadingRef (store w) = false ->
  tidy_history (recentSearches (store w)) ->
  let prev := recentSearches (store w) in
  let next := recentSearches (store (step w (LoadUserData u))) in
  (u ∈ prev -> next ≡ₚ prev /\ head next = Some u) /\
  (u ∉ prev -> length prev < 5 -> next = u :: prev).
Proof.
  intros Hne Hguard (Hnd & Hlen & _) prev next. subst next.
  rewrite step_loadUserData_recentSearches by done. subst prev.
  rewrite addRecentSearch_cons. split.
  - intros Hin. split; [|done].
    rewrite take_ge; [by apply move_to_front|].
    pose proof (filter_ne_length u _ Hnd Hin). lia.
  - intros Hout Hroom. rewrite filter_ne_absent by done.
    rewrite take_ge; [done|lia].
Qed.

Lemma search_again_only_reorders_witness :
  let w := mounted ["e"; "d"; "c"; "b"; "a"] ∅ in
  recentSearches (store (step w (LoadUserData "b"))) ≡ₚ ["e"; "d"; "c"; "b"; "a"].
Proof.
  intros w.
  destruct (search_again_only_reorders w "b") as [Hagain _].
  - discriminate.
  - reflexivity.
  - repeat split; [by apply (bool_decide_unpack _) | simpl; lia |
                   by apply (bool_decide_unpack _)].
  - apply Hagain. by apply (bool_decide_unpack _).
Defined.
